(** * Gland HTTP core: path normalisation, system events and middleware
    registration.

    A shallow embedding of

      - [src/lib/utils/decorator.utils.ts]  ([RouteNormalizer], [HttpAdapter])
      - [src/packages/http/http-core.ts]    ([HttpCore])

    JavaScript strings are Rocq strings, [throw] is the [Throw] outcome of
    a result type, and the objects the classes mutate (event channel,
    transport, middleware registry, plugin settings) are fields of one
    explicit [HttpCore] record threaded through a small state-and-exception
    monad. *)

From Stdlib Require Import Ascii String List Bool.
From stdpp Require Import base option gmap strings.

Local Open Scope string_scope.

(** ** JavaScript values, errors and outcomes *)

Module Js.

(** An [Error] object: everything thrown in the embedded sources is one
    ([new Error(..)], [Error(..)], or a [TypeError] of the runtime). *)
Record JsError : Type := mkError
  { err_name : string; err_message : string; err_stack : string }.

Inductive PluginUnit : Type := Cors | BodyParser | Proxy.

(** A property key is a string or a symbol; [String(key)] prints it. *)
Inductive PropertyKey : Type :=
| KString (s : string)
| KSymbol (id : nat) (description : string).

(** What a function value refers to.  [UserFn] is a callback of the
    embedder and [PluginMiddleware] the closure a plugin unit's
    [createMiddleware()] returned: arrow functions, which have no
    [prototype] of their own.  [ClassFn name methods] is the constructor
    of a class that declares the instance methods [methods] (inherited
    ones included) and no static member, and [Method] one of these
    methods.  [FunctionCtor], [FunctionProto] and [ObjectCtor] are the
    realm's [Function], [Function.prototype] and [Object], and
    [Builtin] a built-in method. *)
Inductive FnRef : Type :=
| UserFn (id : nat)
| PluginMiddleware (unit : PluginUnit)
| ClassFn (name : string) (methods : list PropertyKey)
| Method (class : string) (key : PropertyKey)
| FunctionCtor
| FunctionProto
| ObjectCtor
| Builtin (name : string).

Definition key_eqb (a b : PropertyKey) : bool :=
  match a, b with
  | KString s, KString t => String.eqb s t
  | KSymbol i _, KSymbol j _ => Nat.eqb i j
  | _, _ => false
  end.

Definition String_of_key (k : PropertyKey) : string :=
  match k with
  | KString s => s
  | KSymbol _ d => "Symbol(" +:+ d +:+ ")"
  end.

#[local] Unset Elimination Schemes.
Inductive JsValue : Type :=
| VUndefined
| VNull
| VBool (b : bool)
| VNumber (n : Z)
| VString (s : string)
| VFunction (f : FnRef)
| VError (e : JsError)
| VArray (items : list JsValue)
| VObject (fields : list (PropertyKey * JsValue)).
#[local] Set Elimination Schemes.

(** The outcome of a JavaScript call: a returned value or a thrown error. *)
Inductive Result (A : Type) : Type :=
| Return (a : A)
| Throw (e : JsError).
Arguments Return {A} a.
Arguments Throw {A} e.

Definition returns {A} (r : Result A) : bool :=
  match r with Return _ => true | Throw _ => false end.

Definition bindR {A B} (r : Result A) (k : A -> Result B) : Result B :=
  match r with
  | Return a => k a
  | Throw e => Throw e
  end.

(** [new Error(msg)] / [Error(msg)]; the stack is the engine's business. *)
Definition newError (msg : string) : JsError :=
  {| err_name := "Error"; err_message := msg; err_stack := "Error: " +:+ msg |}.

Definition typeError (msg : string) : JsError :=
  {| err_name := "TypeError"; err_message := msg;
     err_stack := "TypeError: " +:+ msg |}.

(** [typeof v === 'string'] and [typeof v === 'function'], the tests
    behind the toolkit's [isString] and [isFunction]. *)
Definition isString (v : JsValue) : bool :=
  match v with VString _ => true | _ => false end.

Definition isFunction (v : JsValue) : bool :=
  match v with VFunction _ => true | _ => false end.

(** The properties an object answers to, its own and the inherited
    ones, as an association list; a missing one reads as [undefined]. *)
Fixpoint assoc (k : PropertyKey) (fields : list (PropertyKey * JsValue))
  : JsValue :=
  match fields with
  | [] => VUndefined
  | (k', v) :: rest => if key_eqb k k' then v else assoc k rest
  end.

(** *** The built-in prototypes *)

(** The well-known symbol [Symbol.hasInstance]; the symbols of the
    embedder have other identities. *)
Definition Symbol_hasInstance : PropertyKey := KSymbol 0 "Symbol.hasInstance".

Definition builtin_method (name : string) : PropertyKey * JsValue :=
  (KString name, VFunction (Builtin name)).

(** The members of [Object.prototype], but for the [__proto__] accessor,
    whose value is the prototype of the object it is read on. *)
Definition Object_prototype_members : list (PropertyKey * JsValue) :=
  [(KString "constructor", VFunction ObjectCtor);
   builtin_method "hasOwnProperty";
   builtin_method "isPrototypeOf";
   builtin_method "propertyIsEnumerable";
   builtin_method "toLocaleString";
   builtin_method "toString";
   builtin_method "valueOf";
   builtin_method "__defineGetter__";
   builtin_method "__defineSetter__";
   builtin_method "__lookupGetter__";
   builtin_method "__lookupSetter__"].

Definition Object_prototype : JsValue :=
  VObject (Object_prototype_members ++ [(KString "__proto__", VNull)])%list.

(** The data properties of [Function.prototype], its own in front of
    those it inherits from [Object.prototype]. *)
Definition Function_prototype_members : list (PropertyKey * JsValue) :=
  ([(KString "constructor", VFunction FunctionCtor);
    builtin_method "apply";
    builtin_method "bind";
    builtin_method "call";
    builtin_method "toString";
    (Symbol_hasInstance, VFunction (Builtin "[Symbol.hasInstance]"));
    (KString "length", VNumber 0);
    (KString "name", VString "")]
   ++ Object_prototype_members)%list.

(** [C.prototype] of a class: [constructor] points back at the class,
    then come the methods, then what [Object.prototype] provides. *)
Definition class_prototype (name : string) (methods : list PropertyKey)
  : JsValue :=
  VObject
    ((KString "constructor", VFunction (ClassFn name methods))
       :: map (fun k => (k, VFunction (Method name k))) methods
       ++ Object_prototype_members
       ++ [(KString "__proto__", Object_prototype)])%list.

(** The [prototype] property a function has of its own: constructors
    have one, arrow functions, methods and built-in methods do not. *)
Definition own_prototype (f : FnRef) : JsValue :=
  match f with
  | ClassFn name methods => class_prototype name methods
  | FunctionCtor => VFunction FunctionProto
  | ObjectCtor => Object_prototype
  | _ => VUndefined
  end.

Definition restricted_property_error : JsError :=
  typeError ("'caller', 'callee', and 'arguments' properties may not be "
             +:+ "accessed on strict mode functions or the arguments "
             +:+ "objects for calls to them").

(** [f[k]] on a function: its own [prototype], the two restricted
    accessors of [Function.prototype], which throw, and otherwise
    what [Function.prototype] provides.  (The [name] and [length] a
    function has of its own are not tracked: they read as those of
    [Function.prototype].) *)
Definition function_member (f : FnRef) (k : PropertyKey) : Result JsValue :=
  if key_eqb k (KString "prototype") then Return (own_prototype f)
  else if key_eqb k (KString "caller") || key_eqb k (KString "arguments")
  then Throw restricted_property_error
  else if key_eqb k (KString "__proto__")
  then Return (match f with
               | FunctionProto => Object_prototype
               | _ => VFunction FunctionProto
               end)
  else Return (assoc k Function_prototype_members).

(** [v[k]]: a property read.  It throws on [undefined] and [null];
    objects and errors answer with their properties and functions with
    [function_member]; of the other values only that they have no
    property of the embedder's is represented. *)
Definition get_prop (v : JsValue) (k : PropertyKey) : Result JsValue :=
  match v with
  | VUndefined =>
      Throw (typeError ("Cannot read properties of undefined (reading '"
                          +:+ String_of_key k +:+ "')"))
  | VNull =>
      Throw (typeError ("Cannot read properties of null (reading '"
                          +:+ String_of_key k +:+ "')"))
  | VObject fields => Return (assoc k fields)
  | VError e =>
      Return (assoc k [(KString "message", VString (err_message e));
                       (KString "stack", VString (err_stack e));
                       (KString "name", VString (err_name e))])
  | VFunction f => function_member f k
  | _ => Return VUndefined
  end.

(** [v === undefined] *)
Definition is_undefined (v : JsValue) : bool :=
  match v with VUndefined => true | _ => false end.

End Js.
Export Js.

(** ** RouteNormalizer ([src/lib/utils/decorator.utils.ts]) *)

Module RouteNormalizer.

Definition is_sep (c : ascii) : bool := Ascii.eqb c "/"%char.

(** [s.replace(/\/+/g, '/')]: scanning left to right, every maximal run
    of separators is one match and is replaced by a single ['/'].
    [in_run] says that the previous character belonged to the match
    being consumed. *)
Fixpoint replace_sep_runs (in_run : bool) (s : string) : string :=
  match s with
  | EmptyString => EmptyString
  | String c t =>
      if is_sep c
      then (if in_run then replace_sep_runs true t
            else String "/"%char (replace_sep_runs true t))
      else String c (replace_sep_runs false t)
  end.

Definition collapse (s : string) : string := replace_sep_runs false s.

(** [s.replace(/\/$/, '')]: no [g] and no [m] flag, so the only possible
    match is one separator that is the last character of [s]. *)
Fixpoint strip_trailing_sep (s : string) : string :=
  match s with
  | EmptyString => EmptyString
  | String c t =>
      match t with
      | EmptyString => if is_sep c then EmptyString else s
      | String _ _ => String c (strip_trailing_sep t)
      end
  end.

Definition empty_path_error : JsError := newError "Path cannot be empty.".

(** [if (!path) throw ..]: for a string, [!path] holds exactly of [""]. *)
Definition normalizePath (path : string) : Result string :=
  match path with
  | EmptyString => Throw empty_path_error
  | String _ _ =>
      Return (strip_trailing_sep (collapse ("/" +:+ path)))
  end.

(** [prefix ? this.normalizePath(prefix) : ''] with [prefix] of type
    [string | undefined]: [None] is [undefined], and [Some ""] is falsy
    as well. *)
Definition combinePaths (prefix : option string) (path : string)
  : Result string :=
  bindR (match prefix with
         | None | Some EmptyString => Return ""
         | Some p => normalizePath p
         end) (fun normalizedPrefix =>
  bindR (normalizePath path) (fun normalizedPath =>
  Return (collapse (normalizedPrefix +:+ normalizedPath)))).

(** [normalizePath(normalizePath(p))] *)
Definition normalize_twice (p : string) : Result string :=
  bindR (normalizePath p) normalizePath.

(** *** What the specification calls a normalized path *)

Definition starts_with_sep (s : string) : bool :=
  match s with String c _ => is_sep c | EmptyString => false end.

Fixpoint ends_with_sep (s : string) : bool :=
  match s with
  | EmptyString => false
  | String c EmptyString => is_sep c
  | String _ t => ends_with_sep t
  end.

Fixpoint no_repeated_sep (s : string) : bool :=
  match s with
  | EmptyString => true
  | String a t =>
      negb (is_sep a && starts_with_sep t) && no_repeated_sep t
  end.

Definition nonempty (s : string) : bool :=
  match s with EmptyString => false | String _ _ => true end.

(** Exactly one leading separator: a separator first, and no second one
    right behind it. *)
Definition one_leading_sep (s : string) : bool :=
  match s with
  | String c t => is_sep c && negb (starts_with_sep t)
  | EmptyString => false
  end.

Definition is_normalized (s : string) : bool :=
  nonempty s && one_leading_sep s && no_repeated_sep s
    && negb (ends_with_sep s).

(** Strings made of separators only, the root path ["/"] among them. *)
Fixpoint all_sep (s : string) : bool :=
  match s with
  | EmptyString => true
  | String c t => is_sep c && all_sep t
  end.

(** [target.constructor.prototype[propertyKey]] *)
Definition prototype_member (target : JsValue) (propertyKey : PropertyKey)
  : Result JsValue :=
  bindR (get_prop target (KString "constructor")) (fun ctor =>
  bindR (get_prop ctor (KString "prototype")) (fun proto =>
  get_prop proto propertyKey)).

Definition static_method_error (propertyKey : PropertyKey) : JsError :=
  newError ("Decorators cannot be applied to static methods: "
              +:+ String_of_key propertyKey).

Definition validateMethod (target : JsValue) (propertyKey : PropertyKey)
  : Result unit :=
  bindR (prototype_member target propertyKey) (fun member =>
  let isStatic := is_undefined member in
  if isStatic then Throw (static_method_error propertyKey)
  else Return tt).

End RouteNormalizer.


(** ** The objects an [HttpCore] instance owns *)

Module Objects.

(** Modelled from the spec: the event channel ([HttpEventCore], imported
    from ['./http-events'], is not among the sources).  A channel owns a
    mapping from event name to an ordered sequence of listeners; [emitted]
    and [delivered] log what was emitted and which listener received
    which payload, in order. *)
Record HttpEventCore : Type := mkEvents
  { listeners : gmap string (list JsValue);
    emitted : list (string * JsValue);
    delivered : list (string * JsValue * JsValue) }.

(** The transport collaborator ([ServerTransport], from ['../server']):
    [listen_outcome] is what a bind attempt does ([None] on success, the
    error it throws otherwise) and [listen_calls] logs the attempts. *)
Record ServerTransport : Type := mkTransport
  { listen_outcome : JsValue -> JsValue -> JsValue -> option JsError;
    listen_calls : list (JsValue * JsValue * JsValue) }.

(** Modelled from the spec: an entry of the middleware registry
    ([channel.middleware], not among the sources): an optional path
    prefix and the registered function, kept in insertion order. *)
Record MiddlewareEntry : Type := mkEntry
  { pathPrefix : option JsValue; fn : JsValue }.

(** Modelled from the spec: a plugin settings unit ([PluginsManager],
    from ['./plugins'], is not among the sources): an [enabled] flag and
    a configuration mapping. *)
Record PluginSettings : Type := mkSettings
  { enabled : bool; config : gmap string JsValue }.

Record PluginsManager : Type := mkPlugins
  { cors : PluginSettings; bodyParser : PluginSettings;
    proxy : PluginSettings }.

(** One [HttpCore] instance.  [now] is what [new Date().toISOString()]
    answers. *)
Record HttpCore : Type := mkCore
  { _events : HttpEventCore;
    _transport : ServerTransport;
    middleware : list MiddlewareEntry;
    _plugins : PluginsManager;
    now : string }.

Definition set_events (f : HttpEventCore -> HttpEventCore) (c : HttpCore)
  : HttpCore :=
  {| _events := f (_events c); _transport := _transport c;
     middleware := middleware c; _plugins := _plugins c; now := now c |}.

Definition set_transport (f : ServerTransport -> ServerTransport)
  (c : HttpCore) : HttpCore :=
  {| _events := _events c; _transport := f (_transport c);
     middleware := middleware c; _plugins := _plugins c; now := now c |}.

Definition set_middleware
  (f : list MiddlewareEntry -> list MiddlewareEntry) (c : HttpCore)
  : HttpCore :=
  {| _events := _events c; _transport := _transport c;
     middleware := f (middleware c); _plugins := _plugins c; now := now c |}.

Definition set_plugins (f : PluginsManager -> PluginsManager)
  (c : HttpCore) : HttpCore :=
  {| _events := _events c; _transport := _transport c;
     middleware := middleware c; _plugins := f (_plugins c); now := now c |}.

(** A method of the instance: it runs on the current state of the
    objects, returns or throws, and leaves their next state.  What was
    mutated before a [throw] stays mutated. *)
Definition M (A : Type) : Type := HttpCore -> Result A * HttpCore.

Definition ret {A} (a : A) : M A := fun c => (Return a, c).

Definition throw {A} (e : JsError) : M A := fun c => (Throw e, c).

Definition bind {A B} (m : M A) (k : A -> M B) : M B :=
  fun c =>
    match m c with
    | (Return a, c') => k a c'
    | (Throw e, c') => (Throw e, c')
    end.

(** [try { body } catch (error) { handler }] *)
Definition try_catch {A} (body : M A) (handler : JsError -> M A) : M A :=
  fun c =>
    match body c with
    | (Return a, c') => (Return a, c')
    | (Throw e, c') => handler e c'
    end.

Definition lift {A} (r : Result A) : M A := fun c => (r, c).

Definition modify (f : HttpCore -> HttpCore) : M unit :=
  fun c => (Return tt, f c).

Definition read {A} (f : HttpCore -> A) : M A := fun c => (Return (f c), c).

(** [items.forEach(f)] *)
Fixpoint forEach {A} (f : A -> M unit) (items : list A) : M unit :=
  match items with
  | [] => ret tt
  | x :: rest => bind (f x) (fun _ => forEach f rest)
  end.

End Objects.
Export Objects.

Declare Scope js_scope.
Delimit Scope js_scope with js.
Notation "'let*' x := m 'in' k" := (bind m (fun x => k))
  (at level 10, x name, m at level 99, k at level 200) : js_scope.
Notation "m ;; k" := (bind m (fun _ => k))
  (at level 100, k at level 200, right associativity) : js_scope.
Local Open Scope js_scope.

(** ** The event channel *)

Module EventChannel.

Definition listeners_of (event : string) (ev : HttpEventCore)
  : list JsValue :=
  default [] (listeners ev !! event).

(** Modelled from the spec: [on(event, listener)] appends [listener] to
    the ordered sequence of [event] (the unregister handle it returns
    is never used by the embedded callers). *)
Definition on (event : string) (listener : JsValue) : M unit :=
  modify (set_events (fun ev =>
    {| listeners :=
         <[event := (listeners_of event ev ++ [listener])%list]> (listeners ev);
       emitted := emitted ev;
       delivered := delivered ev |})).

(** Modelled from the spec: [safeEmit(event, payload)] invokes every
    listener registered for [event], in registration order, and
    returns whether any listener existed. *)
Definition safeEmit (event : string) (payload : JsValue) : M bool :=
  let* ls := read (fun c => listeners_of event (_events c)) in
  modify (set_events (fun ev =>
    {| listeners := listeners ev;
       emitted := (emitted ev ++ [(event, payload)])%list;
       delivered :=
         (delivered ev ++ map (fun l => (event, l, payload)) ls)%list |})) ;;
  ret (negb (Nat.eqb (length ls) 0)).

End EventChannel.

(** ** HttpAdapter ([src/lib/utils/decorator.utils.ts], second part) *)

Module HttpAdapter.

(** [this._transport.listen(port, hostname, message)] *)
Definition transport_listen (port hostname message : JsValue) : M unit :=
  modify (set_transport (fun t =>
    {| listen_outcome := listen_outcome t;
       listen_calls :=
         (listen_calls t ++ [(port, hostname, message)])%list |})) ;;
  let* outcome :=
    read (fun c => listen_outcome (_transport c) port hostname message) in
  match outcome with
  | None => ret tt
  | Some error => throw error
  end.

Definition crash_payload (error : JsError) (stack : JsValue)
  (timestamp : string) : JsValue :=
  VObject [(KString "message", VString "Failed to start HTTP server");
           (KString "error", VError error);
           (KString "stack", stack);
           (KString "timestamp", VString timestamp)].

Definition _listen (port hostname message : JsValue) : M unit :=
  try_catch (transport_listen port hostname message) (fun error =>
    let* stack := lift (get_prop (VError error) (KString "stack")) in
    let* timestamp := read now in
    let* listener :=
      EventChannel.safeEmit "$server:crashed"
        (crash_payload error stack timestamp) in
    if negb listener then throw error else ret tt).

End HttpAdapter.

(** ** Plugin settings units and the middleware registry *)

Module Plugins.

Definition unit_of (u : PluginUnit) (p : PluginsManager) : PluginSettings :=
  match u with
  | Cors => cors p
  | BodyParser => bodyParser p
  | Proxy => proxy p
  end.

Definition set_unit (u : PluginUnit) (s : PluginSettings)
  (p : PluginsManager) : PluginsManager :=
  match u with
  | Cors => {| cors := s; bodyParser := bodyParser p; proxy := proxy p |}
  | BodyParser => {| cors := cors p; bodyParser := s; proxy := proxy p |}
  | Proxy => {| cors := cors p; bodyParser := bodyParser p; proxy := s |}
  end.

(** Modelled from the spec: [updateMany(partial)] merges the given
    fields into the current config and leaves the others untouched. *)
Definition updateMany (u : PluginUnit) (args : gmap string JsValue)
  : M unit :=
  modify (set_plugins (fun p =>
    let s := unit_of u p in
    set_unit u {| enabled := enabled s; config := args ∪ config s |} p)).

(** Modelled from the spec: [createMiddleware()] returns a middleware
    function that reads the unit's current config on every request;
    the value only says which unit it belongs to. *)
Definition createMiddleware (u : PluginUnit) : M JsValue :=
  ret (VFunction (PluginMiddleware u)).

(** Modelled from the spec: [channel.middleware.use(fn)] registers a
    global middleware and [channel.middleware.use(path, fn)] a
    path-scoped one, behind the entries registered before. *)
Definition middleware_use (f : JsValue) : M unit :=
  modify (set_middleware (fun reg =>
    (reg ++ [{| pathPrefix := None; fn := f |}])%list)).

Definition middleware_use_path (path f : JsValue) : M unit :=
  modify (set_middleware (fun reg =>
    (reg ++ [{| pathPrefix := Some path; fn := f |}])%list)).

End Plugins.

(** ** HttpCore ([src/packages/http/http-core.ts]) *)

Module HttpCore.

(** [args[i]] of a rest-parameter array: [undefined] past the end. *)
Definition arg (i : nat) (args : list JsValue) : JsValue :=
  nth i args VUndefined.

(** [v.forEach(f)]: arrays iterate, [undefined] and [null] cannot be
    read, and the other values have no [forEach].  (A [forEach] that an
    object carries of its own is not represented: what is proved about
    this branch leaves objects out.) *)
Definition value_forEach (v : JsValue) (f : JsValue -> M unit) : M unit :=
  match v with
  | VArray items => forEach f items
  | VUndefined | VNull =>
      throw (typeError
               "Cannot read properties of undefined (reading 'forEach')")
  | _ => throw (typeError "args[0].forEach is not a function")
  end.

Definition use (args : list JsValue) : M unit :=
  if Nat.eqb (length args) 2 then
    let path := arg 0 args in
    let middleware := arg 1 args in
    if isString path && isFunction middleware
    then Plugins.middleware_use_path path middleware
    else ret tt
  else if Nat.eqb (length args) 1 && isFunction (arg 0 args) then
    Plugins.middleware_use (arg 0 args)
  else
    value_forEach (arg 0 args) (fun middleware =>
      Plugins.middleware_use middleware).

Definition enableCors (args : gmap string JsValue) : M unit :=
  Plugins.updateMany Cors args ;;
  let* mw := Plugins.createMiddleware Cors in
  use [mw].

Definition useBodyParser (args : gmap string JsValue) : M unit :=
  Plugins.updateMany BodyParser args ;;
  let* mw := Plugins.createMiddleware Cors in
  use [mw].

Definition unknown_event_error (event : string) : JsError :=
  newError ("Unknown system event: " +:+ event).

Definition system (event : string) (listener : JsValue) : M unit :=
  if String.eqb event "ready" then
    let* port := lift (get_prop listener (KString "port")) in
    let* host := lift (get_prop listener (KString "host")) in
    let* message := lift (get_prop listener (KString "message")) in
    HttpAdapter._listen port host message
  else if String.eqb event "crashed" then
    EventChannel.on "$server:crashed" listener
  else if String.eqb event "router:miss" then
    EventChannel.on "$router:miss" listener
  else if String.eqb event "request:failed" then
    EventChannel.on "$request:failed" listener
  else
    throw (unknown_event_error event).

(** The closed set of system event names. *)
Definition system_events : list string :=
  ["ready"; "crashed"; "router:miss"; "request:failed"].

End HttpCore.

(** ** Path segments *)

Module PathSegments.

Import RouteNormalizer.

(** What [path.split('/').filter(Boolean)] yields, computed from the
    right: the piece that is still open at the front of the string, and
    the non-empty pieces closed behind it. *)
Definition close (piece : string) (closed : list string) : list string :=
  if nonempty piece then piece :: closed else closed.

Fixpoint pieces (s : string) : string * list string :=
  match s with
  | EmptyString => (EmptyString, [])
  | String c t =>
      let (piece, closed) := pieces t in
      if is_sep c then (EmptyString, close piece closed)
      else (String c piece, closed)
  end.

(** The segments of a path: its maximal separator-free pieces that are
    not empty, from left to right. *)
Definition segments (s : string) : list string :=
  let (piece, closed) := pieces s in close piece closed.

(** [segs.map(seg => '/' + seg).join('')] *)
Fixpoint render (segs : list string) : string :=
  match segs with
  | [] => EmptyString
  | seg :: rest => String "/"%char (seg +:+ render rest)
  end.

Fixpoint has_sep (s : string) : bool :=
  match s with
  | EmptyString => false
  | String c t => is_sep c || has_sep t
  end.

(** A segment proper: not empty and without a separator. *)
Definition is_segment (s : string) : bool := nonempty s && negb (has_sep s).

(** The segments of an optional prefix: none for [undefined]. *)
Definition prefix_segments (prefix : option string) : list string :=
  match prefix with
  | None => []
  | Some p => segments p
  end.

End PathSegments.

(** ** generateCacheKey ([src/lib/utils/decorator.utils.ts]) *)

Module CacheKey.

(** The two fields of [ctx.req] the key is built from; either may be
    [undefined] on an incoming message. *)
Record IncomingMessage : Type := mkRequest
  { method : option string; url : option string }.

Record ServerRequest : Type := mkContext { req : IncomingMessage }.

(** How a template literal prints a [string | undefined]. *)
Definition template (v : option string) : string :=
  match v with
  | Some s => s
  | None => "undefined"
  end.

Definition generateCacheKey (ctx : ServerRequest) : string :=
  template (method (req ctx)) +:+ ":" +:+ template (url (req ctx)).

Fixpoint has_colon (s : string) : bool :=
  match s with
  | EmptyString => false
  | String c t => Ascii.eqb c ":"%char || has_colon t
  end.

End CacheKey.

(** ** Shapes of arguments and registry entries *)

Module Shapes.

(** The values that may answer to [forEach]: arrays do, and an object
    may carry a property of that name. *)
Definition may_have_forEach (v : JsValue) : bool :=
  match v with VArray _ | VObject _ => true | _ => false end.

Definition is_object (v : JsValue) : bool :=
  match v with VObject _ => true | _ => false end.

(** The entry a global registration leaves in the registry. *)
Definition global_entry (f : JsValue) : MiddlewareEntry :=
  {| pathPrefix := None; fn := f |}.

End Shapes.

(** ** Sample objects *)

Module Samples.

Definition bind_error : JsError :=
  {| err_name := "Error";
     err_message := "listen EADDRINUSE: address already in use :::3000";
     err_stack := "Error: listen EADDRINUSE: address already in use :::3000" |}.

(** A transport on which port 3000 is taken and every other bind works. *)
Definition busy_3000 (port hostname message : JsValue) : option JsError :=
  match port with
  | VNumber 3000 => Some bind_error
  | _ => None
  end.

Definition no_plugins : PluginsManager :=
  {| cors := {| enabled := true; config := ∅ |};
     bodyParser := {| enabled := true; config := ∅ |};
     proxy := {| enabled := false; config := ∅ |} |}.

(** A fresh instance: no listener, no middleware, nothing logged. *)
Definition fresh_core : Objects.HttpCore :=
  {| _events := {| listeners := ∅; emitted := []; delivered := [] |};
     _transport := {| listen_outcome := busy_3000; listen_calls := [] |};
     middleware := [];
     _plugins := no_plugins;
     now := "2025-01-01T00:00:00.000Z" |}.

Definition crash_listener : JsValue := VFunction (UserFn 7).

(** A class with one instance method [handler].  The decorator of an
    instance member receives the prototype of the class as its target,
    the decorator of a static member the class itself. *)
Definition controller_prototype : JsValue :=
  class_prototype "UserController" [KString "handler"].

Definition controller_class : JsValue :=
  VFunction (ClassFn "UserController" [KString "handler"]).

End Samples.

(** * Properties *)

(** ** Separator runs and the trailing separator *)

Section PathLemmas.

Import RouteNormalizer.

Lemma is_sep_eq (c : ascii) : is_sep c = true -> c = "/"%char.
Proof. unfold is_sep. apply Ascii.eqb_eq. Qed.

(** After the global replace no two separators are adjacent, and
    the rest of a run that is being consumed leaves no separator in
    front. *)
Lemma replace_sep_runs_shape (s : string) :
  forall in_run,
    no_repeated_sep (replace_sep_runs in_run s) = true /\
    (in_run = true -> starts_with_sep (replace_sep_runs in_run s) = false).
Proof.
  induction s as [|c t IH]; intros in_run; simpl.
  - split; [reflexivity|]. reflexivity.
  - destruct (is_sep c) eqn:Hc.
    + destruct in_run.
      * apply IH.
      * destruct (IH true) as [Hn Hs]. simpl.
        rewrite (Hs eq_refl), Hn. split; [reflexivity | discriminate].
    + destruct (IH false) as [Hn _]. simpl. rewrite Hc, Hn.
      split; reflexivity.
Qed.

Lemma collapse_no_repeated (s : string) :
  no_repeated_sep (collapse s) = true.
Proof. apply (replace_sep_runs_shape s false). Qed.

(** The global replace leaves a string without adjacent separators
    as it is. *)
Lemma replace_sep_runs_fixed (s : string) :
  forall in_run,
    no_repeated_sep s = true ->
    (in_run = true -> starts_with_sep s = false) ->
    replace_sep_runs in_run s = s.
Proof.
  induction s as [|c t IH]; intros in_run Hn Hs; simpl in *.
  - reflexivity.
  - apply andb_prop in Hn as [Hct Hn]. destruct (is_sep c) eqn:Hc.
    + destruct in_run; [specialize (Hs eq_refl); discriminate|].
      rewrite (is_sep_eq c Hc). f_equal. apply IH; [exact Hn|].
      intros _. simpl in Hct. now apply negb_true_iff in Hct.
    + f_equal. apply IH; [exact Hn | discriminate].
Qed.

Lemma collapse_fixed (s : string) :
  no_repeated_sep s = true -> collapse s = s.
Proof. intros Hn. apply replace_sep_runs_fixed; [exact Hn | discriminate]. Qed.

Lemma replace_sep_runs_empty_iff (s : string) :
  replace_sep_runs true s = "" <-> all_sep s = true.
Proof.
  induction s as [|c t IH]; simpl.
  - split; reflexivity.
  - destruct (is_sep c); simpl; [exact IH|]. split; discriminate.
Qed.

Lemma strip_starts (s : string) :
  starts_with_sep (strip_trailing_sep s) = true -> starts_with_sep s = true.
Proof.
  destruct s as [|c [|d t]]; simpl; try discriminate.
  - destruct (is_sep c) eqn:Hc; simpl; intros H; congruence.
  - intros H; exact H.
Qed.

Lemma strip_no_repeated (s : string) :
  no_repeated_sep s = true -> no_repeated_sep (strip_trailing_sep s) = true.
Proof.
  induction s as [|c t IH]; [reflexivity|].
  intros Hn. destruct t as [|d t'].
  - simpl. destruct (is_sep c); [reflexivity | exact Hn].
  - change (strip_trailing_sep (String c (String d t')))
      with (String c (strip_trailing_sep (String d t'))).
    change (no_repeated_sep (String c (String d t')))
      with (negb (is_sep c && is_sep d) && no_repeated_sep (String d t'))
      in Hn.
    apply andb_prop in Hn as [Hcd Hn].
    change (negb (is_sep c
                    && starts_with_sep (strip_trailing_sep (String d t')))
              && no_repeated_sep (strip_trailing_sep (String d t')) = true).
    rewrite (IH Hn), andb_true_r.
    destruct (starts_with_sep (strip_trailing_sep (String d t'))) eqn:Hs.
    + apply strip_starts in Hs. simpl in Hs. rewrite Hs in Hcd. exact Hcd.
    + now rewrite andb_false_r.
Qed.

(** Without adjacent separators, removing one trailing separator
    leaves none at the end. *)
Lemma strip_no_trailing (s : string) :
  no_repeated_sep s = true -> ends_with_sep (strip_trailing_sep s) = false.
Proof.
  induction s as [|c t IH]; [reflexivity|].
  intros Hn. destruct t as [|d t'].
  - simpl. destruct (is_sep c) eqn:Hc; [reflexivity | simpl; exact Hc].
  - change (no_repeated_sep (String c (String d t')))
      with (negb (is_sep c && is_sep d) && no_repeated_sep (String d t'))
      in Hn.
    apply andb_prop in Hn as [Hcd Hn]. specialize (IH Hn).
    change (strip_trailing_sep (String c (String d t')))
      with (String c (strip_trailing_sep (String d t'))).
    destruct (strip_trailing_sep (String d t')) as [|e u] eqn:Hstrip.
    + (* the tail was a single separator *)
      destruct t' as [|e' u'];
        [|simpl in Hstrip; discriminate].
      simpl in Hstrip. destruct (is_sep d) eqn:Hd; [|discriminate].
      simpl. rewrite andb_true_r in Hcd.
      now apply negb_true_iff in Hcd.
    + exact IH.
Qed.

Lemma strip_fixed (s : string) :
  ends_with_sep s = false -> strip_trailing_sep s = s.
Proof.
  induction s as [|c t IH]; [reflexivity|].
  intros He. destruct t as [|d t'].
  - simpl in *. now rewrite He.
  - change (strip_trailing_sep (String c (String d t')))
      with (String c (strip_trailing_sep (String d t'))).
    f_equal. apply IH. exact He.
Qed.

Lemma strip_nonempty (s : string) :
  nonempty s = true -> starts_with_sep s = false ->
  nonempty (strip_trailing_sep s) = true.
Proof.
  destruct s as [|c [|d t]]; simpl; try discriminate.
  - intros _ Hc. now rewrite Hc.
  - reflexivity.
Qed.

End PathLemmas.

(** ** normalizePath *)

Section NormalizePath.

Import RouteNormalizer.

Lemma normalizePath_unfold (c : ascii) (t : string) :
  normalizePath (String c t) =
  Return (strip_trailing_sep
            (String "/"%char (replace_sep_runs true (String c t)))).
Proof. reflexivity. Qed.

(** What [normalizePath] returns: the empty string for a path made of
    separators only, and a normalized path for every other one. *)
Lemma normalizePath_result (p r : string) :
  normalizePath p = Return r ->
  (all_sep p = true /\ r = "") \/
  (all_sep p = false /\ is_normalized r = true).
Proof.
  destruct p as [|c t]; [discriminate|].
  rewrite normalizePath_unfold. intros Hr.
  assert (Hr' : r = strip_trailing_sep
                      (String "/"%char (replace_sep_runs true (String c t))))
    by congruence.
  clear Hr. subst r.
  destruct (replace_sep_runs_shape (String c t) true) as [Hn Hs].
  specialize (Hs eq_refl).
  destruct (replace_sep_runs true (String c t)) as [|e u] eqn:Hu.
  - left. split; [now apply replace_sep_runs_empty_iff | reflexivity].
  - right. split.
    + destruct (all_sep (String c t)) eqn:Ha; [|reflexivity].
      apply replace_sep_runs_empty_iff in Ha. congruence.
    + change (strip_trailing_sep (String "/"%char (String e u)))
        with (String "/"%char (strip_trailing_sep (String e u))).
      pose proof (strip_no_repeated _ Hn) as Hn'.
      pose proof (strip_no_trailing _ Hn) as He'.
      pose proof (strip_nonempty (String e u) eq_refl Hs) as Hne.
      assert (Hs' : starts_with_sep (strip_trailing_sep (String e u))
                    = false).
      { destruct (starts_with_sep (strip_trailing_sep (String e u)))
          eqn:H; [|reflexivity].
        apply strip_starts in H. congruence. }
      destruct (strip_trailing_sep (String e u)) as [|f v];
        [discriminate|].
      unfold is_normalized, one_leading_sep.
      change (no_repeated_sep (String "/"%char (String f v)))
        with (negb (is_sep "/"%char && starts_with_sep (String f v))
                && no_repeated_sep (String f v)).
      change (ends_with_sep (String "/"%char (String f v)))
        with (ends_with_sep (String f v)).
      rewrite Hs', Hn', He'. reflexivity.
Qed.

(** A normalized path is a fixed point of [normalizePath]. *)
Lemma normalizePath_fixed (r : string) :
  is_normalized r = true -> normalizePath r = Return r.
Proof.
  unfold is_normalized. intros H.
  apply andb_prop in H as [H He]. apply andb_prop in H as [H Hn].
  apply andb_prop in H as [_ Hl].
  destruct r as [|c t]; [discriminate|].
  simpl in Hl. apply andb_prop in Hl as [Hc Ht].
  apply negb_true_iff in Ht. apply negb_true_iff in He.
  rewrite normalizePath_unfold. f_equal.
  pose proof (is_sep_eq c Hc) as ->.
  change (replace_sep_runs true (String "/"%char t))
    with (replace_sep_runs true t).
  simpl in Hn. apply andb_prop in Hn as [_ Hn].
  rewrite (replace_sep_runs_fixed t true Hn (fun _ => Ht)).
  now apply strip_fixed.
Qed.

(** Idempotence away from the root: when [p] has a character that is
    not a separator, normalizing twice is normalizing once. *)
Lemma normalizePath_idempotent_off_root (p : string) :
  all_sep p = false -> normalize_twice p = normalizePath p.
Proof.
  intros Ha. unfold normalize_twice.
  destruct (normalizePath p) as [r|e] eqn:Hp; [|reflexivity].
  destruct (normalizePath_result p r Hp) as [[Ha' _]|[_ Hr]];
    [congruence|].
  simpl. now apply normalizePath_fixed.
Qed.

End NormalizePath.

(** ** combinePaths *)

Section CombinePaths.

Import RouteNormalizer.

Lemma starts_with_sep_app (a b : string) :
  nonempty a = true -> starts_with_sep (a +:+ b) = starts_with_sep a.
Proof. destruct a; [discriminate | reflexivity]. Qed.

Lemma no_repeated_sep_app (a b : string) :
  no_repeated_sep a = true -> no_repeated_sep b = true ->
  ends_with_sep a = false -> no_repeated_sep (a +:+ b) = true.
Proof.
  induction a as [|c t IH]; intros Ha Hb He; [exact Hb|].
  change (String c t +:+ b) with (String c (t +:+ b)).
  simpl in Ha. apply andb_prop in Ha as [Hct Ha].
  destruct t as [|d t'].
  - simpl in He. simpl. rewrite He. exact Hb.
  - change (no_repeated_sep (String c (String d t' +:+ b)))
      with (negb (is_sep c && starts_with_sep (String d t' +:+ b))
              && no_repeated_sep (String d t' +:+ b)).
    rewrite starts_with_sep_app by reflexivity.
    rewrite Hct. apply IH; [exact Ha | exact Hb | exact He].
Qed.

Lemma ends_with_sep_app (a b : string) :
  nonempty b = true -> ends_with_sep (a +:+ b) = ends_with_sep b.
Proof.
  intros Hb. induction a as [|c t IH]; [reflexivity|].
  change (String c t +:+ b) with (String c (t +:+ b)).
  destruct (t +:+ b) as [|d u] eqn:Htb.
  - destruct t; [|discriminate].
    change (b = "") in Htb. rewrite Htb in Hb. discriminate.
  - exact IH.
Qed.

Lemma is_normalized_parts (s : string) :
  is_normalized s = true ->
  nonempty s = true /\ one_leading_sep s = true /\
  no_repeated_sep s = true /\ ends_with_sep s = false.
Proof.
  unfold is_normalized. intros H.
  apply andb_prop in H as [H He]. apply andb_prop in H as [H Hn].
  apply andb_prop in H as [H0 Hl]. apply negb_true_iff in He. auto.
Qed.

(** Two normalized paths put end to end are a normalized path. *)
Lemma is_normalized_app (a b : string) :
  is_normalized a = true -> is_normalized b = true ->
  is_normalized (a +:+ b) = true.
Proof.
  intros Ha Hb.
  destruct (is_normalized_parts a Ha) as (Ha0 & Hal & Han & Hae).
  destruct (is_normalized_parts b Hb) as (Hb0 & Hbl & Hbn & Hbe).
  unfold is_normalized.
  rewrite (no_repeated_sep_app a b Han Hbn Hae).
  rewrite (ends_with_sep_app a b Hb0), Hbe.
  destruct a as [|c [|d t]]; try discriminate.
  - (* a single character: it would be a trailing separator *)
    simpl in Hal, Hae. rewrite Hae in Hal. discriminate.
  - simpl in Hal |- *. rewrite Hal. reflexivity.
Qed.

Lemma append_empty_r (a : string) : a +:+ "" = a.
Proof.
  induction a as [|c t IH]; [reflexivity|].
  change (String c t +:+ "") with (String c (t +:+ "")). now rewrite IH.
Qed.

(** What [combinePaths] returns never has two adjacent separators, and
    is the empty string or a normalized path. *)
Lemma combinePaths_result (prefix : option string) (path r : string) :
  combinePaths prefix path = Return r ->
  no_repeated_sep r = true /\ (r = "" \/ is_normalized r = true).
Proof.
  unfold combinePaths. intros H.
  assert (Hpre : exists np,
             match prefix with
             | None | Some EmptyString => Return ""
             | Some p => normalizePath p
             end = Return np /\ (np = "" \/ is_normalized np = true)).
  { destruct prefix as [[|c t]|].
    - exists "". auto.
    - destruct (normalizePath (String c t)) as [np|e] eqn:Hp;
        [|discriminate].
      exists np. split; [reflexivity|].
      destruct (normalizePath_result _ _ Hp) as [[_ ->]|[_ Hn]]; auto.
    - exists "". auto. }
  destruct Hpre as (np & Hnp & Hshape). rewrite Hnp in H. simpl in H.
  destruct (normalizePath path) as [nq|e] eqn:Hq; [|discriminate].
  simpl in H. injection H as <-.
  split; [apply collapse_no_repeated|].
  assert (Hq' : nq = "" \/ is_normalized nq = true).
  { destruct (normalizePath_result _ _ Hq) as [[_ ->]|[_ Hn]]; auto. }
  destruct Hshape as [->|Hnp']; destruct Hq' as [->|Hnq'].
  - left. reflexivity.
  - right. change ("" +:+ nq) with nq.
    rewrite collapse_fixed; [exact Hnq'|].
    now apply is_normalized_parts in Hnq'.
  - right. rewrite append_empty_r.
    rewrite collapse_fixed; [exact Hnp'|].
    now apply is_normalized_parts in Hnp'.
  - right. pose proof (is_normalized_app np nq Hnp' Hnq') as Hn.
    rewrite collapse_fixed; [exact Hn|].
    now apply is_normalized_parts in Hn.
Qed.

End CombinePaths.

(** ** The claims on RouteNormalizer *)

Section RouteNormalizerClaims.

Import RouteNormalizer.

(** C4. [normalizePath] throws exactly when its input is the empty
    string, and the error then says that the path cannot be empty; on
    every other input it returns; and [normalizePath("//a//b/")] is
    ["/a/b"]. *)
Theorem normalizePath_throws_exactly_on_empty :
  (forall p : string, normalizePath p = Throw empty_path_error <-> p = "")
  /\ (forall p : string, returns (normalizePath p) = nonempty p)
  /\ err_message empty_path_error = "Path cannot be empty."
  /\ normalizePath "//a//b/" = Return "/a/b".
Proof.
  split; [|split; [|split; reflexivity]].
  - intros [|c t]; simpl; split; intros H;
      reflexivity || discriminate.
  - intros [|c t]; reflexivity.
Qed.

(** C5, at the failing input.  For the root path ["/"], which is not
    empty, [normalizePath] returns the empty string: a value that is
    not a normalized path, as it neither is non-empty nor starts with
    a separator. *)
Theorem normalizePath_root_not_normalized :
  exists r : string,
    normalizePath "/" = Return r /\
    nonempty r = false /\ starts_with_sep r = false /\
    is_normalized r = false.
Proof. exists "". repeat split. Qed.

(** C1, at the failing input.  For the root path ["/"] the first
    application of [normalizePath] returns the empty string, so the
    second application throws: [normalizePath(normalizePath("/"))] is
    not [normalizePath("/")]. *)
Theorem normalizePath_twice_root_throws :
  normalizePath "/" = Return "" /\
  normalize_twice "/" = Throw empty_path_error /\
  normalize_twice "/" <> normalizePath "/".
Proof. repeat split. discriminate. Qed.

(** C3, at the failing input.  With no prefix and the root path ["/"],
    [combinePaths] returns the empty string, which lacks the leading
    separator. *)
Theorem combinePaths_root_lacks_separator :
  exists r : string,
    combinePaths None "/" = Return r /\
    nonempty r = false /\ starts_with_sep r = false.
Proof. exists "". repeat split. Qed.

(** The two sample compositions of the specification. *)
Theorem combinePaths_samples :
  combinePaths (Some "/api") "/users" = Return "/api/users" /\
  combinePaths None "/users" = Return "/users".
Proof. split; reflexivity. Qed.

(** For every prefix and every non-empty path [combinePaths] returns,
    and its result has no two adjacent separators and is either empty
    or a normalized path. *)
Theorem combinePaths_total_no_repeated
  (prefix : option string) (path : string) :
  nonempty path = true ->
  exists r : string,
    combinePaths prefix path = Return r /\
    no_repeated_sep r = true /\ (r = "" \/ is_normalized r = true).
Proof.
  intros Hp.
  assert (H : exists r, combinePaths prefix path = Return r).
  { unfold combinePaths.
    destruct path as [|c t]; [discriminate|].
    destruct prefix as [[|d u]|]; simpl; eauto. }
  destruct H as [r Hr]. exists r. split; [exact Hr|].
  exact (combinePaths_result prefix path r Hr).
Qed.

Lemma combinePaths_total_no_repeated_witness :
  exists r : string,
    combinePaths (Some "//api/") "v1//users/" = Return r /\
    no_repeated_sep r = true /\ (r = "" \/ is_normalized r = true).
Proof.
  apply (combinePaths_total_no_repeated (Some "//api/") "v1//users/").
  reflexivity.
Defined.

(** Away from the root, [normalizePath] returns a normalized path and
    is idempotent. *)
Theorem normalizePath_off_root (p : string) :
  all_sep p = false ->
  exists r : string,
    normalizePath p = Return r /\ is_normalized r = true /\
    normalize_twice p = Return r.
Proof.
  intros Ha. destruct p as [|c t]; [discriminate|].
  destruct (normalizePath (String c t)) as [r|e] eqn:Hp;
    [|discriminate].
  exists r. split; [reflexivity|].
  destruct (normalizePath_result _ _ Hp) as [[Ha' _]|[_ Hr]];
    [congruence|].
  split; [exact Hr|].
  rewrite normalizePath_idempotent_off_root by exact Ha. exact Hp.
Qed.

Lemma normalizePath_off_root_witness :
  exists r : string,
    normalizePath "a//b/" = Return r /\ is_normalized r = true /\
    normalize_twice "a//b/" = Return r.
Proof. apply (normalizePath_off_root "a//b/"). reflexivity. Defined.

Lemma key_eqb_refl (k : PropertyKey) : key_eqb k k = true.
Proof. destruct k; simpl; [apply String.eqb_refl | apply Nat.eqb_refl]. Qed.

(** On a class, [target.constructor] is [Function], so the member is
    looked up on [Function.prototype]. *)
Lemma prototype_member_of_class
  (name : string) (methods : list PropertyKey) (key : PropertyKey) :
  prototype_member (VFunction (ClassFn name methods)) key
  = function_member FunctionProto key.
Proof. reflexivity. Qed.

(** On the prototype of a class, [target.constructor] is the class, so
    the member is looked up on that same prototype. *)
Lemma prototype_member_of_class_prototype
  (name : string) (methods : list PropertyKey) (key : PropertyKey) :
  prototype_member (class_prototype name methods) key
  = get_prop (class_prototype name methods) key.
Proof. reflexivity. Qed.

Lemma assoc_methods_defined
  (name : string) (methods : list PropertyKey) (key : PropertyKey)
  (rest : list (PropertyKey * JsValue)) :
  In key methods ->
  is_undefined
    (assoc key (map (fun k => (k, VFunction (Method name k))) methods
                  ++ rest)%list) = false.
Proof.
  induction methods as [|m ms IH]; intros Hin; [destruct Hin|].
  simpl. destruct (key_eqb key m) eqn:E; [reflexivity|].
  destruct Hin as [->|Hin]; [|exact (IH Hin)].
  now rewrite key_eqb_refl in E.
Qed.

(** An instance method passes: with the prototype of its class as the
    target and one of the class's methods as the key, [validateMethod]
    returns. *)
Lemma validateMethod_instance_method_returns
  (name : string) (methods : list PropertyKey) (key : PropertyKey) :
  In key methods ->
  validateMethod (class_prototype name methods) key = Return tt.
Proof.
  intros Hin. unfold validateMethod.
  rewrite prototype_member_of_class_prototype.
  unfold class_prototype, get_prop, bindR.
  change (assoc key ((KString "constructor",
                      VFunction (ClassFn name methods)) :: ?l))
    with (if key_eqb key (KString "constructor")
          then VFunction (ClassFn name methods) else assoc key l).
  destruct (key_eqb key (KString "constructor")); [reflexivity|].
  now rewrite (assoc_methods_defined name methods key _ Hin).
Qed.

(** A static member is rejected when [Function.prototype] has no
    member of its name: with the class as the target, [validateMethod]
    throws the error that names the member. *)
Lemma validateMethod_static_method_throws
  (name : string) (methods : list PropertyKey) (key : PropertyKey) :
  function_member FunctionProto key = Return VUndefined ->
  validateMethod (VFunction (ClassFn name methods)) key
  = Throw (static_method_error key).
Proof.
  intros H. unfold validateMethod.
  now rewrite prototype_member_of_class, H.
Qed.

(** C8, at the failing input.  A static member whose name is also a
    member of [Function.prototype] is not rejected: for every class,
    with the class itself as the target - as the decorator of a static
    member receives it - and the key ["toString"], ["call"], ["apply"]
    or ["bind"], [validateMethod] returns without throwing, whether or
    not the class has an instance member of that name. *)
Theorem validateMethod_accepts_static_toString
  (name : string) (methods : list PropertyKey) :
  validateMethod (VFunction (ClassFn name methods)) (KString "toString")
    = Return tt /\
  validateMethod (VFunction (ClassFn name methods)) (KString "call")
    = Return tt /\
  validateMethod (VFunction (ClassFn name methods)) (KString "apply")
    = Return tt /\
  validateMethod (VFunction (ClassFn name methods)) (KString "bind")
    = Return tt.
Proof. repeat split. Qed.

Example validateMethod_instance_member :
  validateMethod Samples.controller_prototype (KString "handler")
  = Return tt.
Proof. reflexivity. Qed.

Example validateMethod_static_member :
  validateMethod Samples.controller_class (KString "create")
  = Throw (newError
             "Decorators cannot be applied to static methods: create").
Proof. reflexivity. Qed.

Example validateMethod_static_toString :
  ~ In (KString "toString") [KString "handler"] /\
  validateMethod Samples.controller_class (KString "toString") = Return tt.
Proof.
  split; [|reflexivity]. intros [H|[]]. discriminate H.
Qed.

Example validateMethod_null_target :
  validateMethod VNull (KString "handler")
  = Throw (typeError
             "Cannot read properties of null (reading 'constructor')").
Proof. reflexivity. Qed.

End RouteNormalizerClaims.

(** ** The claims on HttpAdapter and HttpCore *)

Section HttpClaims.

Import EventChannel HttpAdapter.

Lemma transport_listen_run
  (core : Objects.HttpCore) (port hostname message : JsValue) :
  transport_listen port hostname message core =
  (match listen_outcome (_transport core) port hostname message with
   | None => Return tt
   | Some error => Throw error
   end,
   set_transport (fun t =>
     {| listen_outcome := listen_outcome t;
        listen_calls :=
          (listen_calls t ++ [(port, hostname, message)])%list |}) core).
Proof.
  unfold transport_listen, bind, modify, read. simpl.
  destruct (listen_outcome (_transport core) port hostname message);
    reflexivity.
Qed.

Lemma safeEmit_run
  (core : Objects.HttpCore) (event : string) (payload : JsValue) :
  safeEmit event payload core =
  (Return (match listeners_of event (_events core) with
           | [] => false
           | _ :: _ => true
           end),
   set_events (fun ev =>
     {| listeners := listeners ev;
        emitted := (emitted ev ++ [(event, payload)])%list;
        delivered :=
          (delivered ev
             ++ map (fun l => (event, l, payload))
                  (listeners_of event (_events core)))%list |}) core).
Proof.
  unfold safeEmit, bind, modify, read, ret.
  destruct (listeners_of event (_events core)); reflexivity.
Qed.

Lemma error_stack (error : JsError) :
  get_prop (VError error) (KString "stack")
  = Return (VString (err_stack error)).
Proof. reflexivity. Qed.

(** The whole effect of [_listen], by what the transport does. *)
Lemma _listen_run
  (core : Objects.HttpCore) (port hostname message : JsValue) :
  _listen port hostname message core =
  let core1 :=
    set_transport (fun t =>
      {| listen_outcome := listen_outcome t;
         listen_calls :=
           (listen_calls t ++ [(port, hostname, message)])%list |}) core in
  match listen_outcome (_transport core) port hostname message with
  | None => (Return tt, core1)
  | Some error =>
      let ls := listeners_of "$server:crashed" (_events core) in
      let payload :=
        crash_payload error (VString (err_stack error)) (now core) in
      (match ls with [] => Throw error | _ :: _ => Return tt end,
       set_events (fun ev =>
         {| listeners := listeners ev;
            emitted := (emitted ev ++ [("$server:crashed", payload)])%list;
            delivered :=
              (delivered ev
                 ++ map (fun l => ("$server:crashed", l, payload)) ls)%list
         |}) core1)
  end.
Proof.
  unfold _listen, try_catch. rewrite transport_listen_run.
  destruct (listen_outcome (_transport core) port hostname message)
    as [error|]; [|reflexivity].
  unfold bind, lift, read. rewrite error_stack. cbv beta iota.
  rewrite safeEmit_run. cbv beta iota zeta.
  change (listeners_of "$server:crashed"
            (_events (set_transport _ core)))
    with (listeners_of "$server:crashed" (_events core)).
  destruct (listeners_of "$server:crashed" (_events core)); reflexivity.
Qed.

(** C2. When the transport's [listen] throws, [_listen] emits
    ['$server:crashed'] once through [safeEmit], with a payload that
    holds a message, the error, its stack and the timestamp; it
    re-throws that same error when no listener was registered for the
    event and returns normally when one was; and when [listen]
    succeeds it returns and emits nothing. *)
Theorem _listen_crash_contract
  (core : Objects.HttpCore) (port hostname message : JsValue) :
  let out := _listen port hostname message core in
  let ls := listeners_of "$server:crashed" (_events core) in
  listen_calls (_transport (snd out)) =
    (listen_calls (_transport core) ++ [(port, hostname, message)])%list /\
  match listen_outcome (_transport core) port hostname message with
  | Some error =>
      (exists payload : JsValue,
         emitted (_events (snd out)) =
           (emitted (_events core) ++ [("$server:crashed", payload)])%list /\
         delivered (_events (snd out)) =
           (delivered (_events core)
              ++ map (fun l => ("$server:crashed", l, payload)) ls)%list /\
         get_prop payload (KString "message")
           = Return (VString "Failed to start HTTP server") /\
         get_prop payload (KString "error") = Return (VError error) /\
         get_prop payload (KString "stack")
           = Return (VString (err_stack error)) /\
         get_prop payload (KString "timestamp")
           = Return (VString (now core))) /\
      fst out = match ls with
                | [] => Throw error
                | _ :: _ => Return tt
                end
  | None =>
      fst out = Return tt /\
      emitted (_events (snd out)) = emitted (_events core) /\
      delivered (_events (snd out)) = delivered (_events core)
  end.
Proof.
  intros out ls. subst out. rewrite _listen_run. cbv zeta.
  destruct (listen_outcome (_transport core) port hostname message)
    as [error|].
  - fold ls. split; [reflexivity|]. split; [|reflexivity].
    eexists. split; [reflexivity|]. split; [reflexivity|].
    repeat split.
  - repeat split.
Qed.

(** C6. For an event name outside the closed set, [system] throws an
    error whose message names the event, and leaves every object as
    it was: no listener is registered and nothing is triggered. *)
Theorem system_unknown_event_throws
  (event : string) (listener : JsValue) (core : Objects.HttpCore) :
  ~ In event HttpCore.system_events ->
  exists e : JsError,
    HttpCore.system event listener core = (Throw e, core) /\
    err_message e = "Unknown system event: " +:+ event.
Proof.
  intros Hout. exists (HttpCore.unknown_event_error event).
  split; [|reflexivity].
  unfold HttpCore.system, HttpCore.system_events in *. simpl in Hout.
  assert (Hne : forall s, (s = event -> False) -> String.eqb event s = false).
  { intros s Hs. apply String.eqb_neq. intros ->. now apply Hs. }
  rewrite !Hne by (intros H; apply Hout; rewrite H; tauto).
  reflexivity.
Qed.

Lemma system_unknown_event_throws_witness :
  exists e : JsError,
    HttpCore.system "listening" (VFunction (UserFn 0)) Samples.fresh_core
    = (Throw e, Samples.fresh_core) /\
    err_message e = "Unknown system event: " +:+ "listening".
Proof.
  apply (system_unknown_event_throws "listening").
  unfold HttpCore.system_events. simpl.
  intros [H|[H|[H|[H|[]]]]]; discriminate H.
Defined.

(** C7. [system('ready', payload)] calls the transport's [listen] with
    the payload's [port], [host] and [message] and registers no
    listener; [system] with ['crashed'], ['router:miss'] or
    ['request:failed'] returns after appending the listener to those
    of ['$server:crashed'], ['$router:miss'] or ['$request:failed'],
    and leaves the transport alone. *)
Theorem system_known_events
  (core : Objects.HttpCore) (fields : list (PropertyKey * JsValue))
  (listener : JsValue) :
  (let out := HttpCore.system "ready" (VObject fields) core in
   listen_calls (_transport (snd out)) =
     (listen_calls (_transport core)
        ++ [(assoc (KString "port") fields,
             assoc (KString "host") fields,
             assoc (KString "message") fields)])%list /\
   listeners (_events (snd out)) = listeners (_events core))
  /\
  (let out := HttpCore.system "crashed" listener core in
   fst out = Return tt /\
   listeners (_events (snd out)) =
     <["$server:crashed" :=
         (listeners_of "$server:crashed" (_events core) ++ [listener])%list]>
       (listeners (_events core)) /\
   _transport (snd out) = _transport core)
  /\
  (let out := HttpCore.system "router:miss" listener core in
   fst out = Return tt /\
   listeners (_events (snd out)) =
     <["$router:miss" :=
         (listeners_of "$router:miss" (_events core) ++ [listener])%list]>
       (listeners (_events core)) /\
   _transport (snd out) = _transport core)
  /\
  (let out := HttpCore.system "request:failed" listener core in
   fst out = Return tt /\
   listeners (_events (snd out)) =
     <["$request:failed" :=
         (listeners_of "$request:failed" (_events core) ++ [listener])%list]>
       (listeners (_events core)) /\
   _transport (snd out) = _transport core).
Proof.
  split; [|repeat split].
  cbv zeta.
  change (HttpCore.system "ready" (VObject fields) core)
    with (_listen (assoc (KString "port") fields)
            (assoc (KString "host") fields)
            (assoc (KString "message") fields) core).
  rewrite _listen_run. cbv zeta.
  destruct (listen_outcome (_transport core) _ _ _); split; reflexivity.
Qed.

(** C9. [useBodyParser(args)] merges [args] into the body-parser
    unit's configuration and leaves the CORS unit's alone, yet the
    middleware it appends to the registry is the one the CORS unit
    creates; [enableCors(args)] merges [args] into the CORS unit's
    configuration and appends that same CORS middleware. *)
Theorem useBodyParser_registers_cors_middleware
  (args : gmap string JsValue) (core : Objects.HttpCore) :
  (let out := HttpCore.useBodyParser args core in
   fst out = Return tt /\
   config (bodyParser (_plugins (snd out)))
     = args ∪ config (bodyParser (_plugins core)) /\
   cors (_plugins (snd out)) = cors (_plugins core) /\
   middleware (snd out) =
     (middleware core
        ++ [{| pathPrefix := None;
               fn := VFunction (PluginMiddleware Cors) |}])%list)
  /\
  (let out := HttpCore.enableCors args core in
   fst out = Return tt /\
   config (cors (_plugins (snd out)))
     = args ∪ config (cors (_plugins core)) /\
   bodyParser (_plugins (snd out)) = bodyParser (_plugins core) /\
   middleware (snd out) =
     (middleware core
        ++ [{| pathPrefix := None;
               fn := VFunction (PluginMiddleware Cors) |}])%list).
Proof. repeat split. Qed.

(** C10. [use] with exactly two arguments, of which the first is not a
    string or the second is not a function, returns normally and
    leaves the registry, and every other object, as it was. *)
Theorem use_two_arguments_mismatch
  (path mw : JsValue) (core : Objects.HttpCore) :
  isString path = false \/ isFunction mw = false ->
  HttpCore.use [path; mw] core = (Return tt, core).
Proof.
  intros H. unfold HttpCore.use.
  change (Nat.eqb (length [path; mw]) 2) with true.
  change (HttpCore.arg 0 [path; mw]) with path.
  change (HttpCore.arg 1 [path; mw]) with mw.
  cbv beta iota zeta.
  destruct H as [-> | ->]; [|rewrite andb_false_r]; reflexivity.
Qed.

Lemma use_two_arguments_mismatch_witness :
  HttpCore.use [VNumber 1; VFunction (UserFn 0)] Samples.fresh_core
  = (Return tt, Samples.fresh_core).
Proof.
  apply (use_two_arguments_mismatch (VNumber 1) (VFunction (UserFn 0))).
  left. reflexivity.
Defined.

(** *** The methods at work on the sample instance *)

Example use_path_and_function :
  middleware
    (snd (HttpCore.use [VString "/api"; VFunction (UserFn 0)]
            Samples.fresh_core))
  = [{| pathPrefix := Some (VString "/api"); fn := VFunction (UserFn 0) |}].
Proof. reflexivity. Qed.

Example listen_free_port :
  fst (_listen (VNumber 8080) VUndefined VUndefined Samples.fresh_core)
  = Return tt.
Proof. reflexivity. Qed.

Example listen_busy_port_unobserved :
  fst (_listen (VNumber 3000) VUndefined VUndefined Samples.fresh_core)
  = Throw Samples.bind_error.
Proof. reflexivity. Qed.

Example listen_busy_port_observed :
  fst (bind (HttpCore.system "crashed" Samples.crash_listener) (fun _ =>
         HttpCore.system "ready"
           (VObject [(KString "port", VNumber 3000)]))
         Samples.fresh_core)
  = Return tt.
Proof. vm_compute. reflexivity. Qed.

End HttpClaims.


(** * Further properties *)

(** ** Paths as sequences of segments *)

Section Segments.

Import RouteNormalizer PathSegments.

Lemma append_assoc (a b c : string) : (a +:+ b) +:+ c = a +:+ (b +:+ c).
Proof.
  induction a as [|x a IH]; [reflexivity|].
  change (String x ((a +:+ b) +:+ c) = String x (a +:+ (b +:+ c))).
  now rewrite IH.
Qed.

Lemma segments_sep (c : ascii) (t : string) :
  is_sep c = true -> segments (String c t) = segments t.
Proof.
  intros Hc. unfold segments. simpl. destruct (pieces t) as [h r].
  rewrite Hc. reflexivity.
Qed.

Lemma pieces_sep (c : ascii) (t : string) :
  is_sep c = true -> pieces (String c t) = (EmptyString, segments t).
Proof.
  intros Hc. unfold segments. simpl. destruct (pieces t) as [h r].
  now rewrite Hc.
Qed.

Lemma pieces_char (c : ascii) (t : string) :
  is_sep c = false ->
  pieces (String c t) = (String c (fst (pieces t)), snd (pieces t)).
Proof.
  intros Hc. simpl. destruct (pieces t) as [h r]. now rewrite Hc.
Qed.

(** The global replace keeps the segments. *)
Lemma pieces_replace_sep_runs (s : string) :
  pieces (replace_sep_runs false s) = pieces s /\
  segments (replace_sep_runs true s) = segments s.
Proof.
  induction s as [|c t [IHf IHt]]; [split; reflexivity|].
  destruct (is_sep c) eqn:Hc.
  - assert (Hf : replace_sep_runs false (String c t)
                 = String "/"%char (replace_sep_runs true t))
      by (simpl; now rewrite Hc).
    assert (Ht : replace_sep_runs true (String c t) = replace_sep_runs true t)
      by (simpl; now rewrite Hc).
    rewrite Hf, Ht. split.
    + rewrite (pieces_sep "/"%char) by reflexivity.
      rewrite (pieces_sep c) by exact Hc. now rewrite IHt.
    + rewrite (segments_sep c) by exact Hc. exact IHt.
  - assert (Hf : forall b, replace_sep_runs b (String c t)
                           = String c (replace_sep_runs false t))
      by (intros b; simpl; now rewrite Hc).
    rewrite !Hf.
    assert (Hp : pieces (String c (replace_sep_runs false t))
                 = pieces (String c t))
      by (rewrite !pieces_char by exact Hc; now rewrite IHf).
    split; [exact Hp|]. unfold segments. now rewrite Hp.
Qed.

(** Removing a trailing separator keeps the segments. *)
Lemma pieces_strip (s : string) :
  pieces (strip_trailing_sep s) = pieces s.
Proof.
  induction s as [|c t IH]; [reflexivity|].
  destruct t as [|d t'].
  - change (strip_trailing_sep (String c ""))
      with (if is_sep c then "" else String c "").
    destruct (is_sep c) eqn:Hc; [|reflexivity].
    rewrite pieces_sep by exact Hc. reflexivity.
  - change (strip_trailing_sep (String c (String d t')))
      with (String c (strip_trailing_sep (String d t'))).
    destruct (is_sep c) eqn:Hc.
    + rewrite !pieces_sep by exact Hc. unfold segments. now rewrite IH.
    + rewrite !pieces_char by exact Hc. now rewrite IH.
Qed.

(** The open piece has no separator, and every closed one is a segment
    proper. *)
Lemma pieces_wellformed (s : string) :
  has_sep (fst (pieces s)) = false /\
  Forall (fun seg => is_segment seg = true) (snd (pieces s)).
Proof.
  induction s as [|c t [IHh IHr]]; [split; [reflexivity | constructor]|].
  destruct (is_sep c) eqn:Hc.
  - rewrite pieces_sep by exact Hc. split; [reflexivity|].
    unfold segments. destruct (pieces t) as [h r]. simpl in *.
    unfold close. destruct (nonempty h) eqn:Hh; [|exact IHr].
    constructor; [|exact IHr]. unfold is_segment. now rewrite Hh, IHh.
  - rewrite pieces_char by exact Hc. simpl. rewrite Hc, IHh. now split.
Qed.

Lemma segments_wellformed (s : string) :
  Forall (fun seg => is_segment seg = true) (segments s).
Proof.
  destruct (pieces_wellformed s) as [Hh Hr]. unfold segments.
  destruct (pieces s) as [h r]. simpl in *. unfold close.
  destruct (nonempty h) eqn:Hn; [|exact Hr].
  constructor; [|exact Hr]. unfold is_segment. now rewrite Hn, Hh.
Qed.

(** A string without repeated and without trailing separator is its
    open piece followed by its closed pieces, each behind a separator. *)
Lemma pieces_render (t : string) :
  no_repeated_sep t = true -> ends_with_sep t = false ->
  t = fst (pieces t) +:+ render (snd (pieces t)) /\
  (starts_with_sep t = false -> nonempty t = true ->
   nonempty (fst (pieces t)) = true).
Proof.
  induction t as [|c t' IH]; intros Hn He; [split; [reflexivity|discriminate]|].
  simpl in Hn. apply andb_prop in Hn as [Hct Hn].
  assert (He' : ends_with_sep t' = false).
  { destruct t' as [|d u]; [reflexivity | exact He]. }
  destruct (IH Hn He') as [Heq Hopen].
  destruct (is_sep c) eqn:Hc.
  - rewrite pieces_sep by exact Hc. simpl fst. simpl snd.
    split; [|simpl; rewrite Hc; discriminate].
    assert (Hne : nonempty t' = true).
    { destruct t' as [|d u]; [|reflexivity]. simpl in He. congruence. }
    assert (Hst : starts_with_sep t' = false).
    { simpl in Hct. now apply negb_true_iff in Hct. }
    specialize (Hopen Hst Hne).
    unfold segments. destruct (pieces t') as [h r]. simpl in *.
    unfold close. rewrite Hopen. simpl.
    rewrite (is_sep_eq c Hc). now rewrite <- Heq.
  - rewrite pieces_char by exact Hc. simpl fst. simpl snd.
    split; [|reflexivity].
    change (String c t' = String c (fst (pieces t') +:+ render (snd (pieces t')))).
    now rewrite <- Heq.
Qed.

(** A normalized path, and the empty string, is its segments rendered. *)
Lemma normalized_render (r : string) :
  r = "" \/ is_normalized r = true -> r = render (segments r).
Proof.
  intros [->|Hr]; [reflexivity|].
  destruct (is_normalized_parts r Hr) as (H0 & Hl & Hn & He).
  destruct (pieces_render r Hn He) as [Heq _].
  destruct r as [|c t]; [discriminate|].
  simpl in Hl. apply andb_prop in Hl as [Hc _].
  unfold segments. rewrite pieces_sep in * by exact Hc.
  simpl in Heq. exact Heq.
Qed.

Lemma normalizePath_keeps_segments (p r : string) :
  normalizePath p = Return r -> segments r = segments p.
Proof.
  destruct p as [|c t]; [discriminate|].
  rewrite normalizePath_unfold. intros H.
  assert (Hr : r = strip_trailing_sep
                     (String "/"%char (replace_sep_runs true (String c t))))
    by congruence.
  subst r. unfold segments at 1. rewrite pieces_strip.
  fold (segments (String "/"%char (replace_sep_runs true (String c t)))).
  rewrite segments_sep by reflexivity.
  apply pieces_replace_sep_runs.
Qed.

Lemma normalizePath_render (p r : string) :
  normalizePath p = Return r -> r = render (segments p).
Proof.
  intros H. rewrite <- (normalizePath_keeps_segments p r H).
  apply normalized_render.
  destruct (normalizePath_result p r H) as [[_ ->]|[_ Hn]]; auto.
Qed.

Lemma normalizePath_nonempty_render (p : string) :
  nonempty p = true -> normalizePath p = Return (render (segments p)).
Proof.
  intros Hp. destruct (normalizePath p) as [r|e] eqn:H.
  - now rewrite (normalizePath_render p r H).
  - destruct p; discriminate.
Qed.

End Segments.

Section SegmentProperties.

Import RouteNormalizer PathSegments.

Lemma render_app (a b : list string) :
  render (a ++ b)%list = render a +:+ render b.
Proof.
  induction a as [|seg rest IH]; [reflexivity|].
  change (String "/"%char (seg +:+ render (rest ++ b)%list)
          = String "/"%char ((seg +:+ render rest) +:+ render b)).
  now rewrite IH, append_assoc.
Qed.

Lemma no_repeated_sep_free_app (a b : string) :
  has_sep a = false -> no_repeated_sep b = true ->
  no_repeated_sep (a +:+ b) = true.
Proof.
  induction a as [|c t IH]; intros Ha Hb; [exact Hb|].
  simpl in Ha. apply orb_false_iff in Ha as [Hc Ht].
  change (negb (is_sep c && starts_with_sep (t +:+ b))
            && no_repeated_sep (t +:+ b) = true).
  rewrite Hc. simpl. now apply IH.
Qed.

Lemma render_no_repeated (segs : list string) :
  Forall (fun seg => is_segment seg = true) segs ->
  no_repeated_sep (render segs) = true.
Proof.
  induction 1 as [|seg rest Hseg _ IH]; [reflexivity|].
  unfold is_segment in Hseg. apply andb_prop in Hseg as [Hne Hfree].
  apply negb_true_iff in Hfree.
  change (negb (is_sep "/"%char && starts_with_sep (seg +:+ render rest))
            && no_repeated_sep (seg +:+ render rest) = true).
  rewrite (no_repeated_sep_free_app seg (render rest) Hfree IH).
  rewrite starts_with_sep_app by exact Hne.
  destruct seg as [|c t]; [discriminate|].
  simpl in Hfree. apply orb_false_iff in Hfree as [Hc _].
  simpl. now rewrite Hc.
Qed.

Lemma render_empty_iff (segs : list string) : render segs = "" <-> segs = [].
Proof. destruct segs; split; intros H; reflexivity || discriminate. Qed.

(** The pieces of [a + '/' + b]: those of [a], then the segments of
    [b]. *)
Lemma pieces_join (a b : string) :
  pieces (a +:+ String "/"%char b)
  = (fst (pieces a), (snd (pieces a) ++ segments b)%list).
Proof.
  induction a as [|c t IH].
  - change (pieces (String "/"%char b) = ("", segments b)).
    now apply pieces_sep.
  - change (String c t +:+ String "/"%char b)
      with (String c (t +:+ String "/"%char b)).
    destruct (is_sep c) eqn:Hc.
    + rewrite !pieces_sep by exact Hc. simpl. f_equal.
      unfold segments at 1 2. rewrite IH.
      destruct (pieces t) as [h r]. simpl. unfold close.
      destruct (nonempty h); reflexivity.
    + rewrite !pieces_char by exact Hc. now rewrite IH.
Qed.

Lemma segments_join (a b : string) :
  segments (a +:+ String "/"%char b) = (segments a ++ segments b)%list.
Proof.
  unfold segments at 1 2. rewrite pieces_join.
  destruct (pieces a) as [h r]. simpl. unfold close.
  destruct (nonempty h); reflexivity.
Qed.

(** [normalizePath] as a function of the segments: a non-empty path
    normalizes to its segments, each behind one separator, and these
    segments are non-empty and free of separators. *)
Theorem normalizePath_is_rendered_segments (p : string) :
  nonempty p = true ->
  normalizePath p = Return (render (segments p)) /\
  Forall (fun seg => is_segment seg = true) (segments p).
Proof.
  intros Hp. split; [|apply segments_wellformed].
  now apply normalizePath_nonempty_render.
Qed.

Lemma normalizePath_is_rendered_segments_witness :
  normalizePath "api//v1/users/" = Return (render (segments "api//v1/users/"))
  /\ Forall (fun seg => is_segment seg = true) (segments "api//v1/users/").
Proof.
  apply (normalizePath_is_rendered_segments "api//v1/users/"). reflexivity.
Defined.

(** Two non-empty paths normalize to the same result exactly when they
    have the same segments: separators at either end and repeated
    separators make no difference, and nothing else is identified. *)
Theorem normalizePath_same_iff_same_segments (p q : string) :
  nonempty p = true -> nonempty q = true ->
  (normalizePath p = normalizePath q <-> segments p = segments q).
Proof.
  intros Hp Hq.
  pose proof (normalizePath_nonempty_render p Hp) as Ep.
  pose proof (normalizePath_nonempty_render q Hq) as Eq.
  split; intros H.
  - rewrite <- (normalizePath_keeps_segments p _ Ep).
    rewrite <- (normalizePath_keeps_segments q _ Eq).
    rewrite Ep, Eq in H. now injection H as ->.
  - now rewrite Ep, Eq, H.
Qed.

Lemma normalizePath_same_iff_same_segments_witness :
  normalizePath "a//b/" = normalizePath "/a/b"
  <-> segments "a//b/" = segments "/a/b".
Proof.
  apply (normalizePath_same_iff_same_segments "a//b/" "/a/b"); reflexivity.
Defined.

(** [normalizePath] returns the empty string exactly for the non-empty
    paths that consist of separators only. *)
Theorem normalizePath_empty_result_iff (p : string) :
  normalizePath p = Return "" <-> nonempty p = true /\ all_sep p = true.
Proof.
  split.
  - intros H. split; [destruct p; [discriminate | reflexivity]|].
    destruct (normalizePath_result p "" H) as [[Ha _]|[_ Hn]];
      [exact Ha | discriminate].
  - intros [Hp Ha]. destruct (normalizePath p) as [r|e] eqn:H.
    + destruct (normalizePath_result p r H) as [[_ ->]|[Ha' _]];
        [reflexivity | congruence].
    + destruct p; discriminate.
Qed.

Lemma pieces_sep_free_app (seg x : string) :
  has_sep seg = false ->
  pieces (seg +:+ x) = (seg +:+ fst (pieces x), snd (pieces x)).
Proof.
  induction seg as [|c t IH]; intros Hfree.
  - change (pieces x = (fst (pieces x), snd (pieces x))).
    now destruct (pieces x).
  - simpl in Hfree. apply orb_false_iff in Hfree as [Hc Ht].
    change (String c t +:+ x) with (String c (t +:+ x)).
    rewrite pieces_char by exact Hc. now rewrite (IH Ht).
Qed.

Lemma pieces_rendered (segs : list string) :
  pieces (render segs) = (EmptyString, segments (render segs)).
Proof.
  destruct segs as [|seg rest]; [reflexivity|].
  change (render (seg :: rest)) with (String "/"%char (seg +:+ render rest)).
  rewrite (segments_sep "/"%char) by reflexivity.
  now apply pieces_sep.
Qed.

Lemma segments_render (segs : list string) :
  Forall (fun seg => is_segment seg = true) segs ->
  segments (render segs) = segs.
Proof.
  induction 1 as [|seg rest Hseg _ IH]; [reflexivity|].
  unfold is_segment in Hseg. apply andb_prop in Hseg as [Hne Hfree].
  apply negb_true_iff in Hfree.
  change (render (seg :: rest)) with (String "/"%char (seg +:+ render rest)).
  rewrite (segments_sep "/"%char) by reflexivity.
  unfold segments at 1. rewrite pieces_sep_free_app by exact Hfree.
  rewrite pieces_rendered, IH. simpl. rewrite append_empty_r.
  unfold close. now rewrite Hne.
Qed.

(** Round trip: a non-empty list of proper segments, rendered, is
    returned by [normalizePath] as it is, and its segments are the
    list; so the results of [normalizePath] other than the empty
    string are exactly the rendered lists of proper segments. *)
Theorem normalizePath_of_rendered_segments (segs : list string) :
  Forall (fun seg => is_segment seg = true) segs -> segs <> [] ->
  normalizePath (render segs) = Return (render segs) /\
  segments (render segs) = segs.
Proof.
  intros Hsegs Hne. split; [|now apply segments_render].
  destruct segs as [|seg rest]; [contradiction|].
  rewrite normalizePath_nonempty_render by reflexivity.
  now rewrite segments_render.
Qed.

Lemma normalizePath_of_rendered_segments_witness :
  normalizePath (render ["api"; "v1"; "users"])
    = Return (render ["api"; "v1"; "users"]) /\
  segments (render ["api"; "v1"; "users"]) = ["api"; "v1"; "users"].
Proof.
  apply (normalizePath_of_rendered_segments ["api"; "v1"; "users"]).
  - repeat constructor.
  - discriminate.
Defined.

End SegmentProperties.

Section CombineProperties.

Import RouteNormalizer PathSegments.

Lemma prefix_rendered (prefix : option string) :
  match prefix with
  | None | Some EmptyString => Return ""
  | Some p => normalizePath p
  end = Return (render (prefix_segments prefix)).
Proof.
  destruct prefix as [[|c t]|]; try reflexivity.
  now apply normalizePath_nonempty_render.
Qed.

Lemma prefix_segments_wellformed (prefix : option string) :
  Forall (fun seg => is_segment seg = true) (prefix_segments prefix).
Proof.
  destruct prefix as [p|]; [apply segments_wellformed | constructor].
Qed.

Lemma combinePaths_nonempty_render
  (prefix : option string) (path : string) :
  nonempty path = true ->
  combinePaths prefix path
  = Return (render (prefix_segments prefix ++ segments path)%list).
Proof.
  intros Hp. unfold combinePaths. rewrite prefix_rendered.
  rewrite (normalizePath_nonempty_render path Hp).
  simpl. rewrite <- render_app. f_equal. apply collapse_fixed.
  apply render_no_repeated. apply Forall_app.
  split; [apply prefix_segments_wellformed | apply segments_wellformed].
Qed.

(** [combinePaths] as a function of the segments: for a non-empty path
    the result is the segments of the prefix followed by those of the
    path, each behind one separator. *)
Theorem combinePaths_is_rendered_segments
  (prefix : option string) (path : string) :
  nonempty path = true ->
  combinePaths prefix path
  = Return (render (prefix_segments prefix ++ segments path)%list).
Proof.
  exact (combinePaths_nonempty_render prefix path).
Qed.

Lemma combinePaths_is_rendered_segments_witness :
  combinePaths (Some "//api/") "v1//users/"
  = Return (render (prefix_segments (Some "//api/")
                      ++ segments "v1//users/")%list).
Proof.
  apply (combinePaths_is_rendered_segments (Some "//api/") "v1//users/").
  reflexivity.
Defined.

(** Combining a non-empty prefix with a non-empty path is normalizing
    the two joined by a separator. *)
Theorem combinePaths_is_normalizePath_of_join (prefix path : string) :
  nonempty prefix = true -> nonempty path = true ->
  combinePaths (Some prefix) path
  = normalizePath (prefix +:+ "/" +:+ path).
Proof.
  intros Ha Hb.
  rewrite combinePaths_nonempty_render by exact Hb.
  assert (Hj : nonempty (prefix +:+ "/" +:+ path) = true)
    by (destruct prefix; [discriminate | reflexivity]).
  rewrite (normalizePath_nonempty_render _ Hj).
  change ("/" +:+ path) with (String "/"%char path).
  now rewrite segments_join.
Qed.

Lemma combinePaths_is_normalizePath_of_join_witness :
  combinePaths (Some "api/") "/users"
  = normalizePath ("api/" +:+ "/" +:+ "/users").
Proof.
  apply (combinePaths_is_normalizePath_of_join "api/" "/users");
    reflexivity.
Defined.

(** Without a prefix, and with the empty prefix, combining is
    normalizing the path - also where that throws. *)
Theorem combinePaths_without_prefix (path : string) :
  combinePaths None path = normalizePath path /\
  combinePaths (Some "") path = normalizePath path.
Proof.
  destruct path as [|c t]; [split; reflexivity|].
  rewrite !combinePaths_nonempty_render by reflexivity.
  rewrite (normalizePath_nonempty_render (String c t) eq_refl).
  split; reflexivity.
Qed.

(** [combinePaths] throws exactly when the path is empty, whatever the
    prefix is, and the error is that of [normalizePath]. *)
Theorem combinePaths_throws_iff_empty_path
  (prefix : option string) (path : string) :
  (combinePaths prefix path = Throw empty_path_error <-> path = "") /\
  returns (combinePaths prefix path) = nonempty path.
Proof.
  destruct path as [|c t].
  - assert (H : combinePaths prefix "" = Throw empty_path_error).
    { unfold combinePaths. rewrite prefix_rendered. reflexivity. }
    rewrite H. split; [split; reflexivity | reflexivity].
  - rewrite combinePaths_nonempty_render by reflexivity.
    split; [split; discriminate | reflexivity].
Qed.

End CombineProperties.

(** ** generateCacheKey *)

Section CacheKeyProperties.

Import CacheKey.

Lemma colon_join_injective (m1 m2 u1 u2 : string) :
  has_colon m1 = false -> has_colon m2 = false ->
  m1 +:+ ":" +:+ u1 = m2 +:+ ":" +:+ u2 -> m1 = m2 /\ u1 = u2.
Proof.
  revert m2. induction m1 as [|c t IH]; intros [|d v] H1 H2 H.
  - change (String ":"%char u1 = String ":"%char u2) in H.
    injection H as ->. now split.
  - change (String ":"%char u1 = String d (v +:+ ":" +:+ u2)) in H.
    injection H as <- _. simpl in H2. discriminate.
  - change (String c (t +:+ ":" +:+ u1) = String ":"%char u2) in H.
    injection H as -> _. simpl in H1. discriminate.
  - change (String c (t +:+ ":" +:+ u1) = String d (v +:+ ":" +:+ u2)) in H.
    injection H as -> H. simpl in H1, H2.
    apply orb_false_iff in H1 as [_ H1]. apply orb_false_iff in H2 as [_ H2].
    destruct (IH v H1 H2 H) as [-> ->]. now split.
Qed.

(** Two requests that both carry a method and a url, with methods free
    of [':'], have the same cache key only if they have the same
    method and the same url. *)
Theorem generateCacheKey_injective
  (c1 c2 : ServerRequest) (m1 u1 m2 u2 : string) :
  method (req c1) = Some m1 -> url (req c1) = Some u1 ->
  method (req c2) = Some m2 -> url (req c2) = Some u2 ->
  has_colon m1 = false -> has_colon m2 = false ->
  generateCacheKey c1 = generateCacheKey c2 ->
  m1 = m2 /\ u1 = u2.
Proof.
  unfold generateCacheKey. intros -> -> -> -> H1 H2 H.
  exact (colon_join_injective m1 m2 u1 u2 H1 H2 H).
Qed.

Lemma generateCacheKey_injective_witness :
  "GET" = "GET" /\ "/users?page=2" = "/users?page=2".
Proof.
  apply (generateCacheKey_injective
           (mkContext (mkRequest (Some "GET") (Some "/users?page=2")))
           (mkContext (mkRequest (Some "GET") (Some "/users?page=2"))));
    reflexivity.
Defined.

End CacheKeyProperties.

Example generateCacheKey_colon_collision :
  CacheKey.generateCacheKey
    (CacheKey.mkContext (CacheKey.mkRequest (Some "GET:") (Some "x")))
  = CacheKey.generateCacheKey
      (CacheKey.mkContext (CacheKey.mkRequest (Some "GET") (Some ":x"))).
Proof. reflexivity. Qed.

(** ** Middleware registration through [use] *)

Section UseProperties.

Import Shapes.

Lemma set_middleware_nil (core : Objects.HttpCore) :
  set_middleware (fun reg => (reg ++ [])%list) core = core.
Proof. destruct core. unfold set_middleware. simpl. now rewrite app_nil_r. Qed.

Lemma set_middleware_app
  (a b : list MiddlewareEntry) (core : Objects.HttpCore) :
  set_middleware (fun reg => (reg ++ b)%list)
    (set_middleware (fun reg => (reg ++ a)%list) core)
  = set_middleware (fun reg => (reg ++ (a ++ b))%list) core.
Proof.
  destruct core. unfold set_middleware. simpl. now rewrite <- app_assoc.
Qed.

(** [items.forEach(mw => registry.use(mw))]: one global entry per item,
    in the order of the items. *)
Lemma forEach_middleware_use (items : list JsValue) :
  forall core : Objects.HttpCore,
    forEach Plugins.middleware_use items core
    = (Return tt,
       set_middleware (fun reg => (reg ++ map global_entry items)%list) core).
Proof.
  induction items as [|x rest IH]; intros core.
  - simpl. unfold ret. now rewrite set_middleware_nil.
  - change (forEach Plugins.middleware_use (x :: rest) core)
      with (forEach Plugins.middleware_use rest
              (set_middleware (fun reg => (reg ++ [global_entry x])%list)
                 core)).
    rewrite IH, set_middleware_app. reflexivity.
Qed.

Lemma use_unfold_not_two (args : list JsValue) :
  length args <> 2 ->
  HttpCore.use args =
  if Nat.eqb (length args) 1 && isFunction (HttpCore.arg 0 args)
  then Plugins.middleware_use (HttpCore.arg 0 args)
  else HttpCore.value_forEach (HttpCore.arg 0 args) (fun middleware =>
         Plugins.middleware_use middleware).
Proof.
  intros H. unfold HttpCore.use.
  destruct (Nat.eqb (length args) 2) eqn:E; [|reflexivity].
  apply Nat.eqb_eq in E. contradiction.
Qed.

(** An array as first argument: unless there are exactly two arguments,
    [use] registers every element of the array as a global middleware,
    in order and without testing that it is a function, and ignores
    the arguments behind the array. *)
Theorem use_array_registers_each
  (items rest : list JsValue) (core : Objects.HttpCore) :
  length rest <> 1 ->
  let out := HttpCore.use (VArray items :: rest) core in
  fst out = Return tt /\
  middleware (snd out) = (middleware core ++ map global_entry items)%list /\
  _events (snd out) = _events core /\
  _transport (snd out) = _transport core /\
  _plugins (snd out) = _plugins core.
Proof.
  intros Hrest out. subst out.
  rewrite use_unfold_not_two by (simpl; intros H; apply Hrest; congruence).
  change (HttpCore.arg 0 (VArray items :: rest)) with (VArray items).
  change (isFunction (VArray items)) with false. rewrite andb_false_r.
  change (HttpCore.value_forEach (VArray items)
            (fun middleware => Plugins.middleware_use middleware))
    with (forEach Plugins.middleware_use items).
  rewrite forEach_middleware_use. repeat split.
Qed.

Lemma use_array_registers_each_witness :
  let out :=
    HttpCore.use [VArray [VFunction (UserFn 1); VString "not a function";
                          VFunction (UserFn 2)]]
      Samples.fresh_core in
  fst out = Return tt /\
  middleware (snd out) =
    (middleware Samples.fresh_core
       ++ map global_entry [VFunction (UserFn 1); VString "not a function";
                            VFunction (UserFn 2)])%list /\
  _events (snd out) = _events Samples.fresh_core /\
  _transport (snd out) = _transport Samples.fresh_core /\
  _plugins (snd out) = _plugins Samples.fresh_core.
Proof.
  apply (use_array_registers_each
           [VFunction (UserFn 1); VString "not a function";
            VFunction (UserFn 2)] [] Samples.fresh_core).
  simpl. discriminate.
Defined.

(** Outside the two-argument form, a first argument that is neither an
    array nor an object makes [use] throw a [TypeError] and register
    nothing, unless it is a function passed alone: no argument at
    all, a lone string or number, and three or more middleware
    functions passed side by side all fail. *)
Theorem use_throws_without_forEach
  (args : list JsValue) (core : Objects.HttpCore) :
  length args <> 2 ->
  may_have_forEach (HttpCore.arg 0 args) = false ->
  (length args = 1 -> isFunction (HttpCore.arg 0 args) = false) ->
  exists e : JsError,
    HttpCore.use args core = (Throw e, core) /\ err_name e = "TypeError".
Proof.
  intros H2 Hfe H1. rewrite use_unfold_not_two by exact H2.
  assert (Hc : Nat.eqb (length args) 1 && isFunction (HttpCore.arg 0 args)
               = false).
  { destruct (Nat.eqb (length args) 1) eqn:E; [|reflexivity].
    apply Nat.eqb_eq in E. now rewrite (H1 E). }
  rewrite Hc.
  destruct (HttpCore.arg 0 args); try discriminate Hfe;
    eexists; split; reflexivity.
Qed.

Lemma use_throws_without_forEach_witness :
  exists e : JsError,
    HttpCore.use [VFunction (UserFn 1); VFunction (UserFn 2);
                  VFunction (UserFn 3)] Samples.fresh_core
    = (Throw e, Samples.fresh_core) /\ err_name e = "TypeError".
Proof.
  apply (use_throws_without_forEach
           [VFunction (UserFn 1); VFunction (UserFn 2); VFunction (UserFn 3)]
           Samples.fresh_core).
  - simpl. discriminate.
  - reflexivity.
  - simpl. discriminate.
Defined.

(** Whether it returns or throws, [use] only ever appends to the
    registry: the entries that were there stay in front, in their
    order, and the event channel, the transport and the plugin
    settings are not touched.  (An object as the argument that is
    iterated is left out: its own [forEach] would run.) *)
Theorem use_only_appends (args : list JsValue) (core : Objects.HttpCore) :
  length args = 2 \/ is_object (HttpCore.arg 0 args) = false ->
  exists added : list MiddlewareEntry,
    middleware (snd (HttpCore.use args core))
      = (middleware core ++ added)%list /\
    _events (snd (HttpCore.use args core)) = _events core /\
    _transport (snd (HttpCore.use args core)) = _transport core /\
    _plugins (snd (HttpCore.use args core)) = _plugins core.
Proof.
  intros Hshape.
  assert (Hsame : forall r : Result unit,
             exists added : list MiddlewareEntry,
               middleware (snd (r, core)) = (middleware core ++ added)%list /\
               _events (snd (r, core)) = _events core /\
               _transport (snd (r, core)) = _transport core /\
               _plugins (snd (r, core)) = _plugins core).
  { intros r. exists []. simpl. now rewrite app_nil_r. }
  unfold HttpCore.use.
  destruct (Nat.eqb (length args) 2) eqn:E2.
  - destruct (isString (HttpCore.arg 0 args)
                && isFunction (HttpCore.arg 1 args));
      [|apply Hsame].
    eexists. repeat split.
  - destruct (Nat.eqb (length args) 1 && isFunction (HttpCore.arg 0 args)).
    + eexists. repeat split.
    + destruct Hshape as [H2|Hobj];
        [apply Nat.eqb_neq in E2; contradiction|].
      destruct (HttpCore.arg 0 args) as [| | | | | | |items|fields];
        try discriminate Hobj; try apply Hsame.
      change (HttpCore.value_forEach (VArray items)
                (fun middleware => Plugins.middleware_use middleware))
        with (forEach Plugins.middleware_use items).
      rewrite forEach_middleware_use. eexists. repeat split.
Qed.

Lemma use_only_appends_witness :
  exists added : list MiddlewareEntry,
    middleware (snd (HttpCore.use [VString "/api"; VFunction (UserFn 4)]
                       Samples.fresh_core))
      = (middleware Samples.fresh_core ++ added)%list /\
    _events (snd (HttpCore.use [VString "/api"; VFunction (UserFn 4)]
                    Samples.fresh_core)) = _events Samples.fresh_core /\
    _transport (snd (HttpCore.use [VString "/api"; VFunction (UserFn 4)]
                       Samples.fresh_core)) = _transport Samples.fresh_core /\
    _plugins (snd (HttpCore.use [VString "/api"; VFunction (UserFn 4)]
                     Samples.fresh_core)) = _plugins Samples.fresh_core.
Proof.
  apply (use_only_appends [VString "/api"; VFunction (UserFn 4)]
           Samples.fresh_core).
  left. reflexivity.
Defined.

End UseProperties.

(** ** System events and the transport together *)

Section SystemProperties.

Import EventChannel HttpAdapter.

Lemma listeners_of_on_same
  (event : string) (listener : JsValue) (core : Objects.HttpCore) :
  listeners_of event (_events (snd (on event listener core)))
  = (listeners_of event (_events core) ++ [listener])%list.
Proof.
  unfold on, modify, listeners_of. simpl. now rewrite lookup_insert_eq.
Qed.

Lemma listeners_of_on_other
  (event other : string) (listener : JsValue) (core : Objects.HttpCore) :
  event <> other ->
  listeners_of other (_events (snd (on event listener core)))
  = listeners_of other (_events core).
Proof.
  intros Hne. unfold on, modify, listeners_of. simpl.
  now rewrite lookup_insert_ne.
Qed.

Lemma system_ready_run
  (fields : list (PropertyKey * JsValue)) (core : Objects.HttpCore) :
  HttpCore.system "ready" (VObject fields) core
  = _listen (assoc (KString "port") fields) (assoc (KString "host") fields)
      (assoc (KString "message") fields) core.
Proof. reflexivity. Qed.

(** A listener registered with [system('crashed', ..)] observes a
    failure of [system('ready', ..)]: when the transport's [listen]
    throws, the call returns normally, and every listener of
    ['$server:crashed'] - the earlier ones first, the new one last -
    receives one payload that carries the error. *)
Theorem crashed_listener_observes_listen_failure
  (core : Objects.HttpCore) (listener : JsValue)
  (fields : list (PropertyKey * JsValue)) (error : JsError) :
  listen_outcome (_transport core) (assoc (KString "port") fields)
    (assoc (KString "host") fields) (assoc (KString "message") fields)
  = Some error ->
  let out :=
    (HttpCore.system "crashed" listener ;;
     HttpCore.system "ready" (VObject fields)) core in
  fst out = Return tt /\
  exists payload : JsValue,
    get_prop payload (KString "error") = Return (VError error) /\
    delivered (_events (snd out)) =
      (delivered (_events core)
         ++ map (fun l => ("$server:crashed", l, payload))
              (listeners_of "$server:crashed" (_events core)
                 ++ [listener]))%list.
Proof.
  intros Hfail out. subst out. unfold bind.
  change (HttpCore.system "crashed" listener core)
    with (on "$server:crashed" listener core).
  pose proof (listeners_of_on_same "$server:crashed" listener core) as Hls.
  destruct (on "$server:crashed" listener core) as [r core1] eqn:Hon.
  assert (Hr : r = Return tt) by (unfold on, modify in Hon; congruence).
  assert (Ht : _transport core1 = _transport core)
    by (unfold on, modify in Hon; injection Hon as _ <-; reflexivity).
  assert (Hd : delivered (_events core1) = delivered (_events core))
    by (unfold on, modify in Hon; injection Hon as _ <-; reflexivity).
  assert (Hn : now core1 = now core)
    by (unfold on, modify in Hon; injection Hon as _ <-; reflexivity).
  subst r. simpl in Hls. rewrite system_ready_run, _listen_run. cbv zeta.
  rewrite Ht, Hfail, Hls, Hn.
  destruct (listeners_of "$server:crashed" (_events core)) as [|l0 ls];
    (split; [reflexivity|]);
    exists (crash_payload error (VString (err_stack error)) (now core));
    (split; [reflexivity|]); simpl; rewrite Hd; reflexivity.
Qed.

Lemma crashed_listener_observes_listen_failure_witness :
  let out :=
    (HttpCore.system "crashed" Samples.crash_listener ;;
     HttpCore.system "ready" (VObject [(KString "port", VNumber 3000)]))
      Samples.fresh_core in
  fst out = Return tt /\
  exists payload : JsValue,
    get_prop payload (KString "error") = Return (VError Samples.bind_error) /\
    delivered (_events (snd out)) =
      (delivered (_events Samples.fresh_core)
         ++ map (fun l => ("$server:crashed", l, payload))
              (listeners_of "$server:crashed" (_events Samples.fresh_core)
                 ++ [Samples.crash_listener]))%list.
Proof.
  apply (crashed_listener_observes_listen_failure Samples.fresh_core
           Samples.crash_listener [(KString "port", VNumber 3000)]
           Samples.bind_error).
  reflexivity.
Defined.

Lemma on_run
  (event : string) (listener : JsValue) (core : Objects.HttpCore) :
  exists core1 : Objects.HttpCore,
    on event listener core = (Return tt, core1) /\
    _transport core1 = _transport core /\
    delivered (_events core1) = delivered (_events core) /\
    now core1 = now core /\
    forall other : string,
      event <> other ->
      listeners_of other (_events core1) = listeners_of other (_events core).
Proof.
  eexists. split; [reflexivity|]. repeat split.
  intros other Hne. exact (listeners_of_on_other event other listener core Hne).
Qed.

(** Only the listeners of ['crashed'] count for a failing [listen]: with
    none of them registered, a listener registered for ['router:miss']
    or ['request:failed'] does not keep [system('ready', ..)] from
    throwing the transport's error, and it receives nothing. *)
Theorem other_listeners_do_not_observe_listen_failure
  (core : Objects.HttpCore) (event : string) (listener : JsValue)
  (fields : list (PropertyKey * JsValue)) (error : JsError) :
  event = "router:miss" \/ event = "request:failed" ->
  listeners_of "$server:crashed" (_events core) = [] ->
  listen_outcome (_transport core) (assoc (KString "port") fields)
    (assoc (KString "host") fields) (assoc (KString "message") fields)
  = Some error ->
  let out :=
    (HttpCore.system event listener ;;
     HttpCore.system "ready" (VObject fields)) core in
  fst out = Throw error /\
  delivered (_events (snd out)) = delivered (_events core).
Proof.
  intros Hev Hnone Hfail out. subst out. unfold bind.
  assert (Hsys : exists internal : string,
             HttpCore.system event listener core = on internal listener core
             /\ internal <> "$server:crashed").
  { destruct Hev as [-> | ->]; eexists; (split; [reflexivity | discriminate]). }
  destruct Hsys as (internal & -> & Hne).
  destruct (on_run internal listener core)
    as (core1 & -> & Ht & Hd & Hn & Hother).
  rewrite system_ready_run, _listen_run. cbv zeta.
  rewrite Ht, Hfail, (Hother "$server:crashed" Hne), Hnone.
  simpl. rewrite Hd, app_nil_r. split; reflexivity.
Qed.

Lemma other_listeners_do_not_observe_listen_failure_witness :
  let out :=
    (HttpCore.system "router:miss" (VFunction (UserFn 9)) ;;
     HttpCore.system "ready" (VObject [(KString "port", VNumber 3000)]))
      Samples.fresh_core in
  fst out = Throw Samples.bind_error /\
  delivered (_events (snd out)) = delivered (_events Samples.fresh_core).
Proof.
  apply (other_listeners_do_not_observe_listen_failure Samples.fresh_core
           "router:miss" (VFunction (UserFn 9))
           [(KString "port", VNumber 3000)] Samples.bind_error).
  - left. reflexivity.
  - reflexivity.
  - reflexivity.
Defined.

(** A payload of ['ready'] that is no object: [undefined] and [null]
    make [system] throw a [TypeError] before the transport is
    reached, and a callback - as the other three events take - is
    not registered but read as a payload, so that [listen] is called
    with [undefined] for port, host and message. *)
Theorem system_ready_without_payload_object
  (core : Objects.HttpCore) (f : FnRef) :
  (exists e : JsError,
     HttpCore.system "ready" VUndefined core = (Throw e, core) /\
     err_name e = "TypeError") /\
  (exists e : JsError,
     HttpCore.system "ready" VNull core = (Throw e, core) /\
     err_name e = "TypeError") /\
  (let out := HttpCore.system "ready" (VFunction f) core in
   listen_calls (_transport (snd out)) =
     (listen_calls (_transport core)
        ++ [(VUndefined, VUndefined, VUndefined)])%list /\
   listeners (_events (snd out)) = listeners (_events core)).
Proof.
  split; [eexists; split; reflexivity|].
  split; [eexists; split; reflexivity|].
  cbv zeta.
  change (HttpCore.system "ready" (VFunction f) core)
    with (_listen VUndefined VUndefined VUndefined core).
  rewrite _listen_run. cbv zeta.
  destruct (listen_outcome (_transport core) _ _ _); split; reflexivity.
Qed.

End SystemProperties.

(** ** Plugin configuration *)

Section PluginProperties.

(** [enableCors] and [useBodyParser] in a row: each unit's
    configuration takes its own arguments, the later call leaves the
    earlier unit's configuration alone, and the registry gains the
    CORS middleware twice and no body-parser middleware, in either
    order of the two calls. *)
Theorem enableCors_and_useBodyParser
  (a b : gmap string JsValue) (core : Objects.HttpCore) :
  let corsMw := Shapes.global_entry (VFunction (PluginMiddleware Cors)) in
  let out1 := (HttpCore.enableCors a ;; HttpCore.useBodyParser b) core in
  let out2 := (HttpCore.useBodyParser b ;; HttpCore.enableCors a) core in
  fst out1 = Return tt /\
  config (cors (_plugins (snd out1))) = a ∪ config (cors (_plugins core)) /\
  config (bodyParser (_plugins (snd out1)))
    = b ∪ config (bodyParser (_plugins core)) /\
  middleware (snd out1) = (middleware core ++ [corsMw; corsMw])%list /\
  snd out2 = snd out1.
Proof.
  cbv zeta. destruct core as [ev tr mw [c bp px] t]. cbn.
  rewrite <- !app_assoc. repeat split.
Qed.

End PluginProperties.
